(** * BigA dashboard: a shallow embedding of the front-end helpers and of the
    Decision Gate, with the properties the specification states about them.

    Layout: the embedding first (modules [JS], [Utils], [Api], [Page], [Gate],
    and the concrete inputs of [Sample]), then the lemmas and theorems.

    Conventions of the embedding
    - a JavaScript [number] is an IEEE-754 double read by its value: a
      rational for a finite double, or NaN, +Infinity, -Infinity;
    - a JavaScript string is the list of the bytes of its UTF-8 encoding
      (the search patterns the code uses are ASCII, so prefix and substring
      tests agree with the UTF-16 ones);
    - what the code leaves to the platform (rounding a real to a double,
      the shortest round-trip digits of a double, locale formatting of dates,
      the process environment) is a field of the class [JS.Platform]: every
      theorem holds for every platform. *)

From Stdlib Require Import ZArith QArith Qround Qabs String Ascii List Bool Lia Lqa DecimalString.
From Stdlib Require Import Permutation Sorted.
Import ListNotations.
Open Scope string_scope.

(* ================================================================== *)
(** ** JavaScript values and built-ins used by the sources *)
(* ================================================================== *)

Module JS.

(** [number]: a double, by value. [Fin 0] stands for both zeros (the code
    never divides by a zero nor prints one through a sign-sensitive path). *)
Inductive number : Type :=
| NaN
| PosInf
| NegInf
| Fin (q : Q).

(** [T | null | undefined] *)
Inductive maybe (A : Type) : Type :=
| Undefined
| Null
| Value (a : A).
Arguments Undefined {A}.
Arguments Null {A}.
Arguments Value {A} a.

Inductive error : Type :=
| RangeError.

(** Completion of a call: a value, or an exception thrown. *)
Inductive completion (A : Type) : Type :=
| Normal (a : A)
| Throw (e : error).
Arguments Normal {A} a.
Arguments Throw {A} e.

Definition Qlt_bool (a b : Q) : bool := negb (Qle_bool b a).

(** The relational operators on doubles: any comparison with NaN is false. *)
Definition num_lt (a b : number) : bool :=
  match a, b with
  | NaN, _ | _, NaN => false
  | _, NegInf => false
  | NegInf, _ => true
  | PosInf, _ => false
  | Fin _, PosInf => true
  | Fin p, Fin q => Qlt_bool p q
  end.

Definition num_le (a b : number) : bool :=
  match a, b with
  | NaN, _ | _, NaN => false
  | NegInf, _ => true
  | _, PosInf => true
  | PosInf, _ => false
  | Fin _, NegInf => false
  | Fin p, Fin q => Qle_bool p q
  end.

Definition num_gt (a b : number) : bool := num_lt b a.
Definition num_ge (a b : number) : bool := num_le b a.

(** ToBoolean *)
Definition truthy_number (n : number) : bool :=
  match n with
  | NaN => false
  | Fin q => negb (Qeq_bool q 0)
  | PosInf | NegInf => true
  end.

Definition truthy_string (s : string) : bool := negb (String.eqb s "").

(** [v || d] on an optional field: absent (undefined or null) and falsy
    values give [d]. *)
Definition or_number (v : option number) (d : number) : number :=
  match v with
  | Some n => if truthy_number n then n else d
  | None => d
  end.

Definition or_string (v : option string) (d : string) : string :=
  match v with
  | Some s => if truthy_string s then s else d
  | None => d
  end.

Definition or_list {A : Type} (v : option (list A)) (d : list A) : list A :=
  match v with
  | Some l => l
  | None => d
  end.

(** A parameter default [p = d]: taken when the argument is undefined. *)
Definition default_arg {A : Type} (v : option A) (d : A) : A :=
  match v with
  | Some a => a
  | None => d
  end.

(** String.prototype.startsWith and includes *)
Definition startsWith (s pre : string) : bool := String.prefix pre s.

Definition includes (s pat : string) : bool :=
  match String.index 0 pat s with
  | Some _ => true
  | None => false
  end.

(** Decimal digits of a non-negative integer, and strings of zeros. *)
Definition digits_of (n : Z) : string :=
  NilZero.string_of_uint (N.to_uint (Z.to_N n)).

Fixpoint zeros (k : nat) : string :=
  match k with
  | O => ""
  | S k' => String "0" (zeros k')
  end.

Definition take (n : nat) (s : string) : string := substring 0 n s.
Definition drop (n : nat) (s : string) : string :=
  substring n (String.length s - n) s.

(** What the sources take from the platform. *)
Class Platform : Type := {
  (** round-to-nearest, ties to even: the finite double nearest to a real
      inside the range of the doubles *)
  round_nearest : Q -> Q;
  (** Number::toString step 5 for a positive finite double: the digits [s]
      of the shortest decimal that reads back as the double, and the
      position [n] of its decimal point *)
  shortest_digits : Q -> positive * Z;
  (** [new Date(ts).toLocaleTimeString('zh-CN', ...)] and
      [new Date(ts).toLocaleString('zh-CN', ...)] with the option bags of
      formatTime and formatDateTime *)
  Date_toLocaleTimeString : string -> string;
  Date_toLocaleString : string -> string;
  (** [process.env.NEXT_PUBLIC_API_URL] *)
  NEXT_PUBLIC_API_URL : option string
}.

(** A real result delivered as a double: at 2^1024 - 2^970 and beyond the
    nearest double is an infinity. *)
Definition overflow_bound : Q := inject_Z (2 ^ 1024 - 2 ^ 970).

Definition to_double {P : Platform} (r : Q) : number :=
  if Qle_bool overflow_bound (Qabs r) then
    (if Qlt_bool r 0 then NegInf else PosInf)
  else Fin (round_nearest r).

Definition negate (x : number) : number :=
  match x with
  | NaN => NaN
  | PosInf => NegInf
  | NegInf => PosInf
  | Fin q => Fin (- q)
  end.

(** [a * b] on doubles. *)
Definition fl_mul {P : Platform} (a b : number) : number :=
  match a, b with
  | NaN, _ | _, NaN => NaN
  | Fin p, Fin q => to_double (p * q)
  | Fin p, inf | inf, Fin p =>
      if Qeq_bool p 0 then NaN
      else if Qlt_bool p 0 then negate inf else inf
  | PosInf, PosInf | NegInf, NegInf => PosInf
  | PosInf, NegInf | NegInf, PosInf => NegInf
  end.

(** [a / b] on doubles; a zero divisor is read as +0. *)
Definition fl_div {P : Platform} (a b : number) : number :=
  match a, b with
  | NaN, _ | _, NaN => NaN
  | Fin p, Fin q =>
      if Qeq_bool q 0 then
        (if Qeq_bool p 0 then NaN else if Qlt_bool p 0 then NegInf else PosInf)
      else to_double (p / q)
  | Fin _, (PosInf | NegInf) => Fin 0
  | inf, Fin q => if Qlt_bool q 0 then negate inf else inf
  | (PosInf | NegInf), (PosInf | NegInf) => NaN
  end.

Definition is_integer (q : Q) : bool := Qeq_bool (inject_Z (Qfloor q)) q.

(** An integer below 2^53 in magnitude: its shortest round-trip decimal is
    its own decimal expansion. *)
Definition safe_integer (q : Q) : bool :=
  is_integer q && Qlt_bool (Qabs q) (inject_Z (2 ^ 53)).

(** Number::toString, steps 6 to 10: lay out the digits [s] with the
    decimal point at position [n]. *)
Definition format_digits (s : positive) (n : Z) : string :=
  let ds := digits_of (Zpos s) in
  let k := Z.of_nat (String.length ds) in
  if (k <=? n)%Z && (n <=? 21)%Z then ds ++ zeros (Z.to_nat (n - k))
  else if (0 <? n)%Z && (n <=? 21)%Z then
    take (Z.to_nat n) ds ++ "." ++ drop (Z.to_nat n) ds
  else if (-6 <? n)%Z && (n <=? 0)%Z then "0." ++ zeros (Z.to_nat (- n)) ++ ds
  else
    let e := (n - 1)%Z in
    let es := (if (e <? 0)%Z then "-" else "+") ++ digits_of (Z.abs e) in
    if (k =? 1)%Z then ds ++ "e" ++ es
    else take 1 ds ++ "." ++ drop 1 ds ++ "e" ++ es.

Definition positive_toString {P : Platform} (a : Q) : string :=
  if safe_integer a then digits_of (Qfloor a)
  else let '(s, n) := shortest_digits a in format_digits s n.

(** Number::toString(x, 10) *)
Definition Number_toString {P : Platform} (x : number) : string :=
  match x with
  | NaN => "NaN"
  | PosInf => "Infinity"
  | NegInf => "-Infinity"
  | Fin q =>
      if Qeq_bool q 0 then "0"
      else (if Qlt_bool q 0 then "-" else "") ++ positive_toString (Qabs q)
  end.

Inductive integer_or_infinity : Type :=
| IntVal (z : Z)
| PlusInfinity
| MinusInfinity.

Definition Qtruncate (q : Q) : Z :=
  if Qlt_bool q 0 then Qceiling q else Qfloor q.

Definition ToIntegerOrInfinity (x : number) : integer_or_infinity :=
  match x with
  | NaN => IntVal 0
  | PosInf => PlusInfinity
  | NegInf => MinusInfinity
  | Fin q => IntVal (Qtruncate q)
  end.

(** Number.prototype.toFixed(fractionDigits), step by step:
    a RangeError unless 0 <= f <= 100; a non-finite receiver prints through
    Number::toString; otherwise the sign, then either Number::toString for a
    magnitude of 1e21 and more, or the integer [n] nearest to [x * 10^f]
    (the larger one on a tie) with the point [f] digits from the right. *)
Definition toFixed {P : Platform} (x : number) (fractionDigits : number)
  : completion string :=
  match ToIntegerOrInfinity fractionDigits with
  | IntVal f =>
      if (f <? 0)%Z || (100 <? f)%Z then Throw RangeError
      else
        match x with
        | Fin q =>
            let s := if Qlt_bool q 0 then "-" else "" in
            let a := Qabs q in
            if Qle_bool (inject_Z (10 ^ 21)) a then
              Normal (s ++ Number_toString (Fin a))
            else
              let n := Qfloor (a * inject_Z (10 ^ f) + (1 # 2)) in
              let m := if (n =? 0)%Z then "0" else digits_of n in
              let fd := Z.to_nat f in
              if (f =? 0)%Z then Normal (s ++ m)
              else
                let m' :=
                  if (String.length m <=? fd)%nat
                  then zeros (fd + 1 - String.length m) ++ m
                  else m in
                let k := String.length m' in
                Normal (s ++ take (k - fd) m' ++ "." ++ drop (k - fd) m')
        | _ => Normal (Number_toString x)
        end
  | PlusInfinity | MinusInfinity => Throw RangeError
  end.

(** The fraction digits toFixed accepts: an integer from 0 to 100 once
    truncated. *)
Definition fraction_digits_ok (fractionDigits : number) : bool :=
  match ToIntegerOrInfinity fractionDigits with
  | IntVal f => (0 <=? f)%Z && (f <=? 100)%Z
  | PlusInfinity | MinusInfinity => false
  end.

Definition is_digit (c : ascii) : bool :=
  (48 <=? nat_of_ascii c)%nat && (nat_of_ascii c <=? 57)%nat.

Definition starts_with_digit (s : string) : bool :=
  match s with
  | String c _ => is_digit c
  | EmptyString => false
  end.

(** [a - b] on doubles. *)
Definition fl_sub {P : Platform} (a b : number) : number :=
  match a, b with
  | NaN, _ | _, NaN => NaN
  | Fin p, Fin q => to_double (p - q)
  | PosInf, PosInf | NegInf, NegInf => NaN
  | PosInf, _ => PosInf
  | NegInf, _ => NegInf
  | Fin _, PosInf => NegInf
  | Fin _, NegInf => PosInf
  end.

(** Array.prototype.sort(comparefn) on a copy of the array. The sort is
    stable, and [x] is placed after [y] only where [comparefn(x, y) > 0] (a
    NaN result counts as 0); for a comparator that orders the elements
    consistently this fixes the result, which is the one built here by
    inserting each element, from the last to the first, in front of the
    sorted rest. *)
Fixpoint insert_stable {A : Type} (comparefn : A -> A -> number) (x : A)
  (l : list A) : list A :=
  match l with
  | [] => [x]
  | y :: rest =>
      if num_gt (comparefn x y) (Fin 0) then y :: insert_stable comparefn x rest
      else x :: l
  end.

Definition Array_sort {A : Type} (comparefn : A -> A -> number) (l : list A)
  : list A :=
  fold_right (insert_stable comparefn) [] l.

End JS.

(* ================================================================== *)
(** ** frontend/lib/utils.ts *)
(* ================================================================== *)

Module Utils.
Import JS.

Section Formatting.
Context {P : Platform}.

(** formatNumber(value, decimals = 2) *)
Definition formatNumber (value : maybe number) (decimals : option number)
  : completion string :=
  match value with
  | Null | Undefined => Normal "-"
  | Value v => toFixed v (default_arg decimals (Fin 2))
  end.

(** formatPercent(value, decimals = 2): [`${(value * 100).toFixed(decimals)}%`] *)
Definition formatPercent (value : maybe number) (decimals : option number)
  : completion string :=
  match value with
  | Null | Undefined => Normal "-"
  | Value v =>
      match toFixed (fl_mul v (Fin 100)) (default_arg decimals (Fin 2)) with
      | Normal s => Normal (s ++ "%")
      | Throw e => Throw e
      end
  end.

(** formatAmount(value) *)
Definition formatAmount (value : maybe number) : completion string :=
  match value with
  | Null | Undefined => Normal "-"
  | Value v =>
      if num_ge v (Fin 100000000) then
        match toFixed (fl_div v (Fin 100000000)) (Fin 2) with
        | Normal s => Normal (s ++ "亿")
        | Throw e => Throw e
        end
      else if num_ge v (Fin 10000) then
        match toFixed (fl_div v (Fin 10000)) (Fin 0) with
        | Normal s => Normal (s ++ "万")
        | Throw e => Throw e
        end
      else toFixed v (Fin 0)
  end.

(** formatTime(ts): [if (!ts) return '-'] *)
Definition formatTime (ts : maybe string) : completion string :=
  match ts with
  | Null | Undefined => Normal "-"
  | Value s =>
      if truthy_string s then Normal (Date_toLocaleTimeString s)
      else Normal "-"
  end.

(** formatDateTime(ts) *)
Definition formatDateTime (ts : maybe string) : completion string :=
  match ts with
  | Null | Undefined => Normal "-"
  | Value s =>
      if truthy_string s then Normal (Date_toLocaleString s)
      else Normal "-"
  end.

End Formatting.

(** getRiskLightClass(light): a [switch] on strict equality. *)
Definition getRiskLightClass (light : maybe string) : string :=
  match light with
  | Value s =>
      if String.eqb s "GREEN" then "risk-light-green"
      else if String.eqb s "YELLOW" then "risk-light-yellow"
      else if String.eqb s "RED" then "risk-light-red"
      else "risk-light-green"
  | Null | Undefined => "risk-light-green"
  end.

(** getRiskLightText(light) *)
Definition getRiskLightText (light : maybe string) : string :=
  match light with
  | Value s =>
      if String.eqb s "GREEN" then "🟢 绿灯"
      else if String.eqb s "YELLOW" then "🟡 黄灯"
      else if String.eqb s "RED" then "🔴 红灯"
      else "🟢 绿灯"
  | Null | Undefined => "🟢 绿灯"
  end.

(** A value read out of an object literal whose own properties are
    strings: the string, undefined, or a member the object inherits from
    Object.prototype (a function, or the prototype itself for [__proto__]). *)
Inductive value : Type :=
| VString (s : string)
| VUndefined
| VInherited (member : string).

(** The properties every object literal inherits from Object.prototype. *)
Definition Object_prototype_members : list string :=
  [ "constructor"; "hasOwnProperty"; "isPrototypeOf"; "propertyIsEnumerable";
    "toLocaleString"; "toString"; "valueOf"; "__proto__";
    "__defineGetter__"; "__defineSetter__"; "__lookupGetter__";
    "__lookupSetter__" ].

Fixpoint own_property (own : list (string * string)) (key : string)
  : option string :=
  match own with
  | [] => None
  | (k, v) :: rest => if String.eqb k key then Some v else own_property rest key
  end.

(** [obj[key]]: the own property, else the one found on the prototype chain. *)
Definition get_property (own : list (string * string)) (key : string) : value :=
  match own_property own key with
  | Some v => VString v
  | None =>
      if existsb (String.eqb key) Object_prototype_members
      then VInherited key
      else VUndefined
  end.

Definition truthy_value (v : value) : bool :=
  match v with
  | VString s => truthy_string s
  | VUndefined => false
  | VInherited _ => true
  end.

(** The table of getRegimeText. *)
Definition regime_map : list (string * string) :=
  [ ("STRONG", "强势"); ("NORMAL", "正常"); ("DIVERGENCE", "分化");
    ("WEAK", "弱势"); ("CHAOS", "混沌") ].

(** getRegimeText(regime): [return map[regime] || regime] *)
Definition getRegimeText (regime : string) : value :=
  let v := get_property regime_map regime in
  if truthy_value v then v else VString regime.

(** getActionClass(action) *)
Definition getActionClass (action : string) : string :=
  if String.eqb action "ALLOW" then "action-allow"
  else if String.eqb action "WATCH" then "action-watch"
  else if String.eqb action "BLOCK" then "action-block"
  else "action-watch".

(** getActionText(action) *)
Definition getActionText (action : string) : string :=
  if String.eqb action "ALLOW" then "✅ 可执行"
  else if String.eqb action "WATCH" then "👁️ 观察"
  else if String.eqb action "BLOCK" then "🚫 禁止"
  else "观察".

End Utils.

(* ================================================================== *)
(** ** frontend/lib/api.ts *)
(* ================================================================== *)

Module Api.
Import JS.

(** URLSearchParams: an ordered list of name/value pairs. *)
Definition URLSearchParams : Type := list (string * string).

Definition append (p : URLSearchParams) (name val : string) : URLSearchParams :=
  (p ++ [(name, val)])%list.

Definition in_range (lo hi c : ascii) : bool :=
  (nat_of_ascii lo <=? nat_of_ascii c)%nat && (nat_of_ascii c <=? nat_of_ascii hi)%nat.

(** Bytes the application/x-www-form-urlencoded serializer leaves as they
    are: ASCII alphanumerics and [*], [-], [.], [_]. *)
Definition urlencoded_plain (c : ascii) : bool :=
  in_range "a" "z" c || in_range "A" "Z" c || in_range "0" "9" c
  || Ascii.eqb c "*" || Ascii.eqb c "-" || Ascii.eqb c "." || Ascii.eqb c "_".

Definition hex_digit (n : nat) : ascii :=
  if (n <? 10)%nat then ascii_of_nat (48 + n) else ascii_of_nat (55 + n).

Definition urlencode_byte (c : ascii) : string :=
  if urlencoded_plain c then String c ""
  else if Ascii.eqb c " " then "+"
  else
    let n := nat_of_ascii c in
    String "%" (String (hex_digit (n / 16)) (String (hex_digit (n mod 16)) "")).

Fixpoint urlencode (s : string) : string :=
  match s with
  | EmptyString => ""
  | String c rest => urlencode_byte c ++ urlencode rest
  end.

(** URLSearchParams.prototype.toString: [name=value] joined by [&]. *)
Definition serialize_field (kv : string * string) : string :=
  urlencode (fst kv) ++ "=" ++ urlencode (snd kv).

Fixpoint serialize (p : URLSearchParams) : string :=
  match p with
  | [] => ""
  | [kv] => serialize_field kv
  | kv :: rest => serialize_field kv ++ "&" ++ serialize rest
  end.

(** Reading a URL back, as the server does: the query is what follows the
    first [?]; its fields are separated by [&]; a field's name ends at its
    first [=]. Names are returned as written (still encoded). The text read
    is the part of the URL that is sent: a fragment, where the URL has one,
    is to be removed first ([sent_part]). *)
Fixpoint split_on (sep : ascii) (s : string) : list string :=
  match s with
  | EmptyString => [""]
  | String c rest =>
      if Ascii.eqb c sep then "" :: split_on sep rest
      else
        match split_on sep rest with
        | [] => [String c ""]
        | w :: ws => String c w :: ws
        end
  end.

Fixpoint after_first (sep : ascii) (s : string) : option string :=
  match s with
  | EmptyString => None
  | String c rest => if Ascii.eqb c sep then Some rest else after_first sep rest
  end.

Fixpoint before_first (sep : ascii) (s : string) : string :=
  match s with
  | EmptyString => ""
  | String c rest => if Ascii.eqb c sep then "" else String c (before_first sep rest)
  end.

(** Does the byte [c] occur in [s]? *)
Fixpoint occurs (c : ascii) (s : string) : bool :=
  match s with
  | EmptyString => false
  | String d rest => Ascii.eqb d c || occurs c rest
  end.

Definition field_of (piece : string) : string * string :=
  (before_first "=" piece, default_arg (after_first "=" piece) "").

Definition query_fields (url : string) : list (string * string) :=
  match after_first "?" url with
  | None => []
  | Some q =>
      map field_of (filter (fun piece => negb (String.eqb piece "")) (split_on "&" q))
  end.

Definition query_names (url : string) : list string := map fst (query_fields url).

(** The value of a hexadecimal digit. *)
Definition hex_value (c : ascii) : option nat :=
  let n := nat_of_ascii c in
  if in_range "0" "9" c then Some (n - 48)%nat
  else if in_range "A" "F" c then Some (n - 55)%nat
  else if in_range "a" "f" c then Some (n - 87)%nat
  else None.

(** Decoding a name or value read back from a query, as the receiving
    server's application/x-www-form-urlencoded parser does: [+] is a space,
    [%] followed by two hexadecimal digits is the byte they denote, every
    other byte stands for itself. *)
Fixpoint urldecode (s : string) : string :=
  match s with
  | EmptyString => ""
  | String c rest =>
      if Ascii.eqb c "+" then String " " (urldecode rest)
      else if Ascii.eqb c "%" then
        match rest with
        | String h1 (String h2 rest') =>
            match hex_value h1, hex_value h2 with
            | Some a, Some b => String (ascii_of_nat (16 * a + b)) (urldecode rest')
            | _, _ => String c (urldecode rest)
            end
        | _ => String c (urldecode rest)
        end
      else String c (urldecode rest)
  end.

Definition decode_field (kv : string * string) : string * string :=
  (urldecode (fst kv), urldecode (snd kv)).

(** The part of a URL that goes to the server: the fragment, [#] and what
    follows it, stays with the client. *)
Definition sent_part (url : string) : string := before_first "#" url.

(** The parameters the server finds in the request for a URL. *)
Definition query_params (url : string) : list (string * string) :=
  map decode_field (query_fields (sent_part url)).


(** A pair of URLSearchParams as it is written into the query. *)
Definition encode_field (kv : string * string) : string * string :=
  (urlencode (fst kv), urlencode (snd kv)).

(** JSON values, as far as the request bodies need them: an object whose
    members are strings. *)
Inductive json : Type :=
| JObject (members : list (string * string)).

Inductive http_method : Type :=
| GET
| POST
| PATCH
| DELETE.

(** The request [fetchAPI] hands to [fetch]. *)
Record request : Type := {
  url : string;
  method : http_method;
  body : option json
}.

Section Client.
Context {P : Platform}.

(** [process.env.NEXT_PUBLIC_API_URL || 'http://localhost:8000'] *)
Definition API_BASE : string := or_string NEXT_PUBLIC_API_URL "http://localhost:8000".

(** fetchAPI(endpoint, options): the request it sends, with
    [url = `${API_BASE}${endpoint}`] (every request also carries the JSON
    content type; the response is not modelled). *)
Definition fetchAPI (endpoint : string) (m : http_method) (b : option json) : request :=
  {| url := API_BASE ++ endpoint; method := m; body := b |}.

(** The parameters built by [api.getCandidates(strategyId?, top = 30)]. *)
Definition getCandidates_params (strategyId : option string) (top : option number)
  : URLSearchParams :=
  let params : URLSearchParams := [] in
  let params :=
    match strategyId with
    | Some s => if truthy_string s then append params "strategy_id" s else params
    | None => params
    end in
  append params "top" (Number_toString (default_arg top (Fin 30))).

Definition getCandidates_endpoint (strategyId : option string) (top : option number)
  : string :=
  "/api/candidates?" ++ serialize (getCandidates_params strategyId top).

Definition getCandidates (strategyId : option string) (top : option number) : request :=
  fetchAPI (getCandidates_endpoint strategyId top) GET None.

(** The parameters built by [api.getAlerts(limit = 200, strategyId?)]. *)
Definition getAlerts_params (limit : option number) (strategyId : option string)
  : URLSearchParams :=
  let params : URLSearchParams := [] in
  let params := append params "limit" (Number_toString (default_arg limit (Fin 200))) in
  match strategyId with
  | Some s => if truthy_string s then append params "strategy_id" s else params
  | None => params
  end.

Definition getAlerts_endpoint (limit : option number) (strategyId : option string)
  : string :=
  "/api/alerts?" ++ serialize (getAlerts_params limit strategyId).

Definition getAlerts (limit : option number) (strategyId : option string) : request :=
  fetchAPI (getAlerts_endpoint limit strategyId) GET None.

(** api.updateAlertLabel(alertId, label): PATCH with body [{ label }]. *)
Definition updateAlertLabel (alertId label : string) : request :=
  fetchAPI ("/api/alerts/" ++ alertId ++ "/label") PATCH
    (Some (JObject [("label", label)])).





(** The parameters built by [api.switchTradingMode(mode, reason?)]:
    [new URLSearchParams({ mode })], then [reason] when it is truthy. *)
Definition switchTradingMode_params (mode : string) (reason : option string)
  : URLSearchParams :=
  let params : URLSearchParams := [("mode", mode)] in
  match reason with
  | Some r => if truthy_string r then append params "reason" r else params
  | None => params
  end.

Definition switchTradingMode_endpoint (mode : string) (reason : option string) : string :=
  "/api/trading/mode?" ++ serialize (switchTradingMode_params mode reason).

Definition switchTradingMode (mode : string) (reason : option string) : request :=
  fetchAPI (switchTradingMode_endpoint mode reason) POST None.

End Client.

(** *** WebSocketClient *)

Module WebSocketClient.

Inductive readyState : Type :=
| CONNECTING
| OPEN
| CLOSING
| CLOSED.

(** A function passed to [subscribe], known by its identity. *)
Definition handler : Type := nat.

(** The client object ([ws], [reconnectTimer], [messageHandlers]) together
    with what the browser holds for it: the sockets created so far (socket
    [i] is the [i]-th created; each carries the four callbacks [connect]
    installs), the timeouts pending (each runs [connect()]; their ids start
    at 1), the texts handed to [WebSocket.send], and the calls made to the
    subscribed handlers. *)
Record state : Type := {
  ws : option nat;
  reconnectTimer : option nat;
  messageHandlers : list handler;
  sockets : list readyState;
  timers : list nat;
  timer_count : nat;
  sent : list (nat * string);
  calls : list (handler * string)
}.

(** [wsClient = new WebSocketClient()] *)
Definition wsClient : state :=
  {| ws := None; reconnectTimer := None; messageHandlers := [];
     sockets := []; timers := []; timer_count := 0; sent := []; calls := [] |}.

Fixpoint set_nth (i : nat) (r : readyState) (l : list readyState) : list readyState :=
  match l, i with
  | [], _ => []
  | _ :: rest, O => r :: rest
  | x :: rest, S j => x :: set_nth j r rest
  end.

(** [this.ws?.readyState === WebSocket.OPEN] *)
Definition is_open (w : state) : bool :=
  match ws w with
  | Some s =>
      match nth_error (sockets w) s with
      | Some OPEN => true
      | _ => false
      end
  | None => false
  end.

(** connect(): nothing when the current socket is open; otherwise a new
    socket, which becomes the current one. *)
Definition connect (w : state) : state :=
  if is_open w then w
  else
    {| ws := Some (List.length (sockets w));
       reconnectTimer := reconnectTimer w;
       messageHandlers := messageHandlers w;
       sockets := (sockets w ++ [CONNECTING])%list;
       timers := timers w;
       timer_count := timer_count w;
       sent := sent w;
       calls := calls w |}.

(** WebSocket.prototype.close(): a socket that is connecting or open starts
    closing; one that is closing or closed stays as it is. *)
Definition close_socket (s : nat) (l : list readyState) : list readyState :=
  match nth_error l s with
  | Some CONNECTING | Some OPEN => set_nth s CLOSING l
  | _ => l
  end.

(** disconnect(): clears the timeout [reconnectTimer] names (the field keeps
    its value), closes the current socket and forgets it. *)
Definition disconnect (w : state) : state :=
  let timers' :=
    match reconnectTimer w with
    | Some t => remove Nat.eq_dec t (timers w)
    | None => timers w
    end in
  {| ws := None;
     reconnectTimer := reconnectTimer w;
     messageHandlers := messageHandlers w;
     sockets :=
       match ws w with
       | Some s => close_socket s (sockets w)
       | None => sockets w
       end;
     timers := timers';
     timer_count := timer_count w;
     sent := sent w;
     calls := calls w |}.

(** subscribe(handler): [messageHandlers.add(handler)]; a Set keeps one copy
    of each member, in the order of insertion. *)
Definition subscribe (h : handler) (w : state) : state :=
  {| ws := ws w;
     reconnectTimer := reconnectTimer w;
     messageHandlers :=
       if existsb (Nat.eqb h) (messageHandlers w) then messageHandlers w
       else (messageHandlers w ++ [h])%list;
     sockets := sockets w;
     timers := timers w;
     timer_count := timer_count w;
     sent := sent w;
     calls := calls w |}.

(** The function [subscribe] returns: [messageHandlers.delete(handler)]. *)
Definition unsubscribe (h : handler) (w : state) : state :=
  {| ws := ws w;
     reconnectTimer := reconnectTimer w;
     messageHandlers := remove Nat.eq_dec h (messageHandlers w);
     sockets := sockets w;
     timers := timers w;
     timer_count := timer_count w;
     sent := sent w;
     calls := calls w |}.

(** send(data), with [text] for [JSON.stringify(data)]: handed to the
    current socket when it is open, dropped otherwise. *)
Definition send (text : string) (w : state) : state :=
  match ws w with
  | Some s =>
      if is_open w then
        {| ws := ws w;
           reconnectTimer := reconnectTimer w;
           messageHandlers := messageHandlers w;
           sockets := sockets w;
           timers := timers w;
           timer_count := timer_count w;
           sent := (sent w ++ [(s, text)])%list;
           calls := calls w |}
      else w
  | None => w
  end.

(** [onopen]: the pending reconnection, if any, is cancelled. *)
Definition onopen (w : state) : state :=
  match reconnectTimer w with
  | Some t =>
      {| ws := ws w;
         reconnectTimer := None;
         messageHandlers := messageHandlers w;
         sockets := sockets w;
         timers := remove Nat.eq_dec t (timers w);
         timer_count := timer_count w;
         sent := sent w;
         calls := calls w |}
  | None => w
  end.

(** [onclose]: [reconnectTimer = setTimeout(() => this.connect(), 3000)]. *)
Definition onclose (w : state) : state :=
  let t := S (timer_count w) in
  {| ws := ws w;
     reconnectTimer := Some t;
     messageHandlers := messageHandlers w;
     sockets := sockets w;
     timers := (timers w ++ [t])%list;
     timer_count := t;
     sent := sent w;
     calls := calls w |}.

Section Dispatch.
(** Does the handler throw when it is called with this data? *)
Variable throws : handler -> string -> bool.

(** [messageHandlers.forEach((handler) => handler(data))] inside the [try]:
    the calls made; a handler that throws ends the loop. *)
Fixpoint forEach (data : string) (hs : list handler) : list (handler * string) :=
  match hs with
  | [] => []
  | h :: rest => (h, data) :: (if throws h data then [] else forEach data rest)
  end.

(** [onmessage], with [parsed] the result of [JSON.parse(event.data)], absent
    when it throws. *)
Definition onmessage (parsed : option string) (w : state) : state :=
  match parsed with
  | Some data =>
      {| ws := ws w;
         reconnectTimer := reconnectTimer w;
         messageHandlers := messageHandlers w;
         sockets := sockets w;
         timers := timers w;
         timer_count := timer_count w;
         sent := sent w;
         calls := (calls w ++ forEach data (messageHandlers w))%list |}
  | None => w
  end.

Definition with_socket (s : nat) (r : readyState) (w : state) : state :=
  {| ws := ws w;
     reconnectTimer := reconnectTimer w;
     messageHandlers := messageHandlers w;
     sockets := set_nth s r (sockets w);
     timers := timers w;
     timer_count := timer_count w;
     sent := sent w;
     calls := calls w |}.

Definition without_timer (t : nat) (w : state) : state :=
  {| ws := ws w;
     reconnectTimer := reconnectTimer w;
     messageHandlers := messageHandlers w;
     sockets := sockets w;
     timers := remove Nat.eq_dec t (timers w);
     timer_count := timer_count w;
     sent := sent w;
     calls := calls w |}.

(** What the browser does to the client: a connecting socket opens, a
    socket that is not closed yet delivers a message or closes, a pending
    timeout expires. *)
Inductive event : Type :=
| Ev_open (s : nat)
| Ev_message (s : nat) (parsed : option string)
| Ev_close (s : nat)
| Ev_timeout (t : nat).

(** The state after an event, where the event can occur. *)
Definition handle (e : event) (w : state) : option state :=
  match e with
  | Ev_open s =>
      match nth_error (sockets w) s with
      | Some CONNECTING => Some (onopen (with_socket s OPEN w))
      | _ => None
      end
  | Ev_message s parsed =>
      match nth_error (sockets w) s with
      | Some OPEN | Some CLOSING => Some (onmessage parsed w)
      | _ => None
      end
  | Ev_close s =>
      match nth_error (sockets w) s with
      | Some CONNECTING | Some OPEN | Some CLOSING =>
          Some (onclose (with_socket s CLOSED w))
      | _ => None
      end
  | Ev_timeout t =>
      if existsb (Nat.eqb t) (timers w) then Some (connect (without_timer t w))
      else None
  end.

(** The states the client can be in: it starts as [wsClient]; its methods
    are called and the browser's events arrive in any order. *)
Inductive reachable : state -> Prop :=
| reach_start : reachable wsClient
| reach_connect w : reachable w -> reachable (connect w)
| reach_disconnect w : reachable w -> reachable (disconnect w)
| reach_subscribe w h : reachable w -> reachable (subscribe h w)
| reach_unsubscribe w h : reachable w -> reachable (unsubscribe h w)
| reach_send w text : reachable w -> reachable (send text w)
| reach_event w e w' : reachable w -> handle e w = Some w' -> reachable w'.

End Dispatch.

End WebSocketClient.

End Api.

(* ================================================================== *)
(** ** frontend/app/page.tsx *)
(* ================================================================== *)

Module Page.
Import JS.

Record ExchangeOption : Type := {
  value : string;
  label : string;
  prefix : string
}.

Definition EXCHANGE_OPTIONS : list ExchangeOption :=
  [ {| value := "SH"; label := "沪市主板"; prefix := "60" |};
    {| value := "SZ"; label := "深市主板"; prefix := "00" |};
    {| value := "CYB"; label := "创业板"; prefix := "30" |};
    {| value := "KCB"; label := "科创板"; prefix := "68" |};
    {| value := "BJ"; label := "北交所"; prefix := "8" |} ].

Record FilterConfig : Type := {
  exchanges : list string;
  showST : bool;
  minAmount : number
}.

(** A row of the stock lists of the dashboard; any field may be absent. *)
Record Stock : Type := {
  symbol : option string;
  name : option string;
  amount : option number;
  close : option number;
  pct_change : option number
}.

(** The [for (const ex of filterConfig.exchanges)] loop of filterStocks:
    [true] at the first selected exchange that is a known option and whose
    prefix starts the symbol. *)
Fixpoint matchExchange (exs : list string) (sym : string) : bool :=
  match exs with
  | [] => false
  | ex :: rest =>
      match find (fun o => String.eqb (value o) ex) EXCHANGE_OPTIONS with
      | Some opt =>
          if startsWith sym (prefix opt) then true else matchExchange rest sym
      | None => matchExchange rest sym
      end
  end.

Section Filter.
Context {P : Platform}.

(** The callback filterStocks passes to [stocks.filter]. *)
Definition keepStock (filterConfig : FilterConfig) (stock : Stock) : bool :=
  let sym := or_string (symbol stock) "" in
  let nm := or_string (name stock) "" in
  if negb (matchExchange (exchanges filterConfig) sym) then false
  else
    let isST := includes nm "ST" || includes nm "*" in
    if negb (showST filterConfig) && isST then false
    else if num_gt (minAmount filterConfig) (Fin 0) then
      let amt := or_number (amount stock) (Fin 0) in
      if num_lt amt (fl_mul (minAmount filterConfig) (Fin 100000000)) then false
      else true
    else true.

(** filterStocks(stocks): [if (!stocks) return []], else the filter. *)
Definition filterStocks (filterConfig : FilterConfig) (stocks : option (list Stock))
  : list Stock :=
  match stocks with
  | None => []
  | Some l => filter (keepStock filterConfig) l
  end.

(** [s] starts with [pre]; [pat] occurs in [s] at some position. *)
Definition starts_with (s pre : string) : Prop :=
  substring 0 (String.length pre) s = pre.

Definition contains (s pat : string) : Prop :=
  exists m : nat, substring m (String.length pat) s = pat.

(** The selection as the specification words it for filterStocks (not read
    off the code): the symbol starts with the prefix of a selected exchange;
    the name contains neither 'ST' nor '*' when showST is false; the amount
    is at least minAmount x 100000000 when minAmount is positive. A missing
    symbol or name reads as the empty string and a missing amount as 0. *)
Definition selected (filterConfig : FilterConfig) (stock : Stock) : Prop :=
  (exists opt : ExchangeOption,
     In opt EXCHANGE_OPTIONS
     /\ In (value opt) (exchanges filterConfig)
     /\ starts_with (or_string (symbol stock) "") (prefix opt))
  /\ (showST filterConfig = false ->
      ~ contains (or_string (name stock) "") "ST"
      /\ ~ contains (or_string (name stock) "") "*")
  /\ (num_gt (minAmount filterConfig) (Fin 0) = true ->
      num_ge (or_number (amount stock) (Fin 0))
        (fl_mul (minAmount filterConfig) (Fin 100000000)) = true).

End Filter.

(** [picks sel l r]: [r] is [l] with exactly the elements satisfying [sel]
    kept, each as often as it occurs and in the order of [l]. *)
Inductive picks {A : Type} (sel : A -> Prop) : list A -> list A -> Prop :=
| picks_nil : picks sel [] []
| picks_keep (x : A) (l r : list A) :
    sel x -> picks sel l r -> picks sel (x :: l) (x :: r)
| picks_skip (x : A) (l r : list A) :
    ~ sel x -> picks sel l r -> picks sel (x :: l) r.

(** [dashboard.market], as far as getMarketMood reads it. *)
Record Market : Type := {
  limit_up_stocks : option (list Stock);
  limit_down_stocks : option (list Stock);
  bomb_rate : option number
}.

Record Mood : Type := {
  text : string;
  color : string;
  bg : string
}.

(** The double literals 0.2, 0.3 and 0.4, by value. *)
Definition d0_2 : Q := 3602879701896397 # 18014398509481984.
Definition d0_3 : Q := 5404319552844595 # 18014398509481984.
Definition d0_4 : Q := 3602879701896397 # 9007199254740992.

(** The three constants getMarketMood reads off [market]. *)
Definition limitUp (market : Market) : nat :=
  List.length (or_list (limit_up_stocks market) []).

Definition limitDown (market : Market) : nat :=
  List.length (or_list (limit_down_stocks market) []).

Definition bombRate (market : Market) : number :=
  or_number (bomb_rate market) (Fin 0).

(** getMarketMood() of DashboardView, with its free variable [market]. *)
Definition getMarketMood (market : Market) : Mood :=
  if (100 <? limitUp market)%nat && num_lt (bombRate market) (Fin d0_2) then
    {| text := "强势"; color := "text-rise"; bg := "bg-rise/10" |}
  else if (50 <? limitUp market)%nat && num_lt (bombRate market) (Fin d0_3) then
    {| text := "偏强"; color := "text-orange-500"; bg := "bg-orange-50" |}
  else if (50 <? limitDown market)%nat || num_gt (bombRate market) (Fin d0_4) then
    {| text := "弱势"; color := "text-fall"; bg := "bg-fall/10" |}
  else
    {| text := "震荡"; color := "text-yellow-600"; bg := "bg-yellow-50" |}.

(** The order of the four moods, best first: 强势 > 偏强 > 震荡 > 弱势. *)
Definition mood_rank (m : Mood) : nat :=
  if String.eqb (text m) "强势" then 3
  else if String.eqb (text m) "偏强" then 2
  else if String.eqb (text m) "震荡" then 1
  else 0.

(** An alert row, as far as AlertCard's handlers read it. *)
Record Alert : Type := {
  alert_id : string;
  alert_action : string;
  user_label : option string
}.

(** What a click handler does, in order. *)
Inductive effect : Type :=
| Call_updateAlertLabel (alertId lbl : string)
| Call_onRefresh
| Call_console_error.

(** handleLabel(label): [await api.updateAlertLabel(alert.alert_id, label)],
    then [onRefresh()]; a rejected request is logged instead. [resolved]
    tells whether the request succeeded. *)
Definition handleLabel (alert : Alert) (lbl : string) (resolved : bool)
  : list effect :=
  Call_updateAlertLabel (alert_id alert) lbl
  :: (if resolved then [Call_onRefresh] else [Call_console_error]).

Record Button : Type := {
  caption : string;
  onClick : bool -> list effect
}.

(** The interactive elements AlertCard renders: its three buttons. *)
Definition AlertCard (alert : Alert) : list Button :=
  [ {| caption := "✓ 成功"; onClick := handleLabel alert "success" |};
    {| caption := "✗ 失败"; onClick := handleLabel alert "fail" |};
    {| caption := "跳过"; onClick := handleLabel alert "skip" |} ].

(** *** FilterPanel *)

(** The filter configuration HomePage starts with. *)
Definition initialFilterConfig : FilterConfig :=
  {| exchanges := ["SH"; "SZ"; "CYB"; "KCB"];
     showST := false;
     minAmount := Fin 0 |}.

(** toggleExchange(value) of FilterPanel: the configuration it hands to
    [onChange]. [includes] and [!==] compare strings by value. *)
Definition toggleExchange (config : FilterConfig) (v : string) : FilterConfig :=
  let newExchanges :=
    if existsb (fun e => String.eqb e v) (exchanges config)
    then filter (fun e => negb (String.eqb e v)) (exchanges config)
    else (exchanges config ++ [v])%list in
  {| exchanges := newExchanges;
     showST := showST config;
     minAmount := minAmount config |}.

(** The configurations the buttons of FilterPanel hand to [onChange], in the
    order the panel renders them: one toggle per exchange option, the ST
    switch, and the amount floors 0, 1, 5 and 10. *)
Definition FilterPanel (config : FilterConfig) : list FilterConfig :=
  (map (fun opt => toggleExchange config (value opt)) EXCHANGE_OPTIONS
   ++ [ {| exchanges := exchanges config;
           showST := negb (showST config);
           minAmount := minAmount config |} ]
   ++ map (fun v => {| exchanges := exchanges config;
                       showST := showST config;
                       minAmount := Fin (inject_Z v) |})
        [0; 1; 5; 10]%Z)%list.

(** The configurations a user can reach by clicking through the panel. *)
Inductive panel_reachable : FilterConfig -> Prop :=
| reach_initial : panel_reachable initialFilterConfig
| reach_click (c c' : FilterConfig) :
    panel_reachable c -> In c' (FilterPanel c) -> panel_reachable c'.

(** *** ExchangeTag *)

Record Tag : Type := {
  tag_label : string;
  tag_className : string
}.

(** ExchangeTag({ symbol }): the label and style of the tag, [None] where
    the component renders nothing ([if (!label) return null]). *)
Definition ExchangeTag (sym : string) : option Tag :=
  if startsWith sym "60" then
    Some {| tag_label := "沪"; tag_className := "bg-blue-50 text-blue-600" |}
  else if startsWith sym "00" then
    Some {| tag_label := "深"; tag_className := "bg-purple-50 text-purple-600" |}
  else if startsWith sym "30" then
    Some {| tag_label := "创"; tag_className := "bg-orange-50 text-orange-600" |}
  else if startsWith sym "68" then
    Some {| tag_label := "科"; tag_className := "bg-green-50 text-green-600" |}
  else if startsWith sym "8" || startsWith sym "4" then
    Some {| tag_label := "北"; tag_className := "bg-pink-50 text-pink-600" |}
  else None.

(** The tag label ExchangeTag gives to the symbols of each filter option. *)
Definition option_tag_label (v : string) : string :=
  if String.eqb v "SH" then "沪"
  else if String.eqb v "SZ" then "深"
  else if String.eqb v "CYB" then "创"
  else if String.eqb v "KCB" then "科"
  else "北".

(** *** StockListCard (first version of the page) *)

(** [displayStocks = expanded ? stocks : stocks.slice(0, 10)] *)
Definition displayStocks (expanded : bool) (stocks : list Stock) : list Stock :=
  if expanded then stocks else firstn 10 stocks.

(** The condition under which the card renders its "show all" button:
    [!expanded && stocks.length > 10]. *)
Definition showExpandButton (expanded : bool) (stocks : list Stock) : bool :=
  negb expanded && (10 <? List.length stocks)%nat.

(** *** StockListCard (later versions of the page): sorting *)

Inductive SortKey : Type :=
| K_pct_change
| K_amount
| K_close
| K_symbol
| K_name.

Definition SortKey_eqb (a b : SortKey) : bool :=
  match a, b with
  | K_pct_change, K_pct_change | K_amount, K_amount | K_close, K_close
  | K_symbol, K_symbol | K_name, K_name => true
  | _, _ => false
  end.

Record SortOption : Type := {
  sort_value : SortKey;
  sort_label : string;
  desc : bool
}.

Definition SORT_OPTIONS : list SortOption :=
  [ {| sort_value := K_pct_change; sort_label := "涨幅"; desc := true |};
    {| sort_value := K_amount; sort_label := "成交额"; desc := true |};
    {| sort_value := K_close; sort_label := "现价"; desc := true |};
    {| sort_value := K_symbol; sort_label := "代码"; desc := false |};
    {| sort_value := K_name; sort_label := "名称"; desc := false |} ].

(** [a[sortKey] || 0] for the numeric keys, [a[sortKey] || ''] for the
    text keys. *)
Definition numeric_field (k : SortKey) (a : Stock) : number :=
  or_number
    match k with
    | K_pct_change => pct_change a
    | K_amount => amount a
    | K_close => close a
    | K_symbol | K_name => None
    end (Fin 0).

Definition text_field (k : SortKey) (a : Stock) : string :=
  or_string
    match k with
    | K_symbol => symbol a
    | K_name => name a
    | K_pct_change | K_amount | K_close => None
    end "".

Section Sorting.
Context {P : Platform}.
(** [a.localeCompare(b)], left to the platform's collation. *)
Variable localeCompare : string -> string -> number.

(** The comparator of [sortedStocks]. *)
Definition compareStocks (sortKey : SortKey) (sortDesc : bool) (a b : Stock)
  : number :=
  match sortKey with
  | K_symbol | K_name =>
      let aVal := text_field sortKey a in
      let bVal := text_field sortKey b in
      if sortDesc then localeCompare bVal aVal else localeCompare aVal bVal
  | K_pct_change | K_amount | K_close =>
      let aVal := numeric_field sortKey a in
      let bVal := numeric_field sortKey b in
      if sortDesc then fl_sub bVal aVal else fl_sub aVal bVal
  end.

(** [sortedStocks = [...stocks].sort(comparator)] *)
Definition sortedStocks (sortKey : SortKey) (sortDesc : bool) (stocks : list Stock)
  : list Stock :=
  Array_sort (compareStocks sortKey sortDesc) stocks.

(** [displayStocks = expanded ? sortedStocks : sortedStocks.slice(0, 10)] *)
Definition displaySortedStocks (sortKey : SortKey) (sortDesc expanded : bool)
  (stocks : list Stock) : list Stock :=
  if expanded then sortedStocks sortKey sortDesc stocks
  else firstn 10 (sortedStocks sortKey sortDesc stocks).

End Sorting.

(** The keys of the rows the card renders, one row per displayed stock:
    [displayStocks.map((stock, i) => <div key={stock.symbol} ...>)]. *)
Definition row_keys (displayStocks : list Stock) : list (option string) :=
  map symbol displayStocks.

(** handleSortChange(key) on the state [(sortKey, sortDesc)]: the same key
    flips the direction, another key brings its default direction
    ([opt?.desc ?? true]). *)
Definition handleSortChange (st : SortKey * bool) (key : SortKey) : SortKey * bool :=
  if SortKey_eqb (fst st) key then (fst st, negb (snd st))
  else
    (key,
     match find (fun o => SortKey_eqb (sort_value o) key) SORT_OPTIONS with
     | Some opt => desc opt
     | None => true
     end).

(** The subtraction of the two doubles keeps the sign of their difference
    (a difference of two distinct doubles is never rounded to zero). *)
Definition difference_sign_kept {P : Platform} (x y : number) : Prop :=
  match x, y with
  | Fin p, Fin q =>
      (q < p -> 0 < round_nearest (p - q)) /\ (p <= q -> round_nearest (p - q) <= 0)
  | _, _ => True
  end.

(** The order a numeric sort is to establish between neighbours. *)
Definition in_order (sortDesc : bool) (x y : number) : bool :=
  if sortDesc then num_ge x y else num_le x y.

Definition numeric_key (k : SortKey) : bool :=
  match k with
  | K_pct_change | K_amount | K_close => true
  | K_symbol | K_name => false
  end.

(** *** AlertCard and PoolView: how an action is shown *)

(** [actionClass] of AlertCard, the class of the card's frame. *)
Definition actionClass (alert : Alert) : string :=
  if String.eqb (alert_action alert) "ALLOW" then "alert-card-allow"
  else if String.eqb (alert_action alert) "WATCH" then "alert-card-watch"
  else "alert-card-block".

(** The badge inside the card: its class and its text. *)
Definition action_badge (action : string) : string * string :=
  (Utils.getActionClass action, Utils.getActionText action).

Record Candidate : Type := {
  cand_symbol : string;
  cand_action : string
}.

(** The filter buttons of PoolView; each sets [filter] to its value. *)
Definition POOL_FILTERS : list string := [""; "ALLOW"; "WATCH"].

(** [filtered] of PoolView. *)
Definition filtered (flt : string) (candidates : list Candidate) : list Candidate :=
  List.filter
    (fun c => if negb (truthy_string flt) then true else String.eqb (cand_action c) flt)
    candidates.

(** *** SessionBadge *)

Definition session_config : list (string * (string * bool)) :=
  [ ("PRE_OPEN", ("集合竞价", true));
    ("MORNING", ("上午盘", true));
    ("LUNCH", ("午休", false));
    ("AFTERNOON", ("下午盘", true));
    ("CLOSED", ("已收盘", false)) ].

Fixpoint own_entry {A : Type} (own : list (string * A)) (key : string) : option A :=
  match own with
  | [] => None
  | (k, v) :: rest => if String.eqb k key then Some v else own_entry rest key
  end.

(** SessionBadge({ session }): the label it renders and whether it is drawn
    as active. [config[session]] finds an own entry, or a member inherited
    from Object.prototype (truthy, with neither [label] nor [active]), or
    nothing, in which case [{ label: session, active: false }] is used. *)
Definition SessionBadge (session : string) : maybe string * bool :=
  match own_entry session_config session with
  | Some (label, active) => (Value label, active)
  | None =>
      if existsb (String.eqb session) Utils.Object_prototype_members
      then (Undefined, false)
      else (Value session, false)
  end.

(** *** The countdown of HomePage *)

Section Countdown.
Context {P : Platform}.

(** One tick of the interval timer, [setCountdown(prev => ...)]: the new
    countdown, and whether [loadData()] was called. *)
Definition countdown_tick (refreshSec prev : number) : number * bool :=
  if num_le prev (Fin 1) then (refreshSec, true)
  else (fl_sub prev (Fin 1), false).

(** [n] ticks in a row: the countdown after them and, tick by tick, whether
    data was loaded. *)
Fixpoint countdown_run (refreshSec : number) (n : nat) (prev : number)
  : number * list bool :=
  match n with
  | O => (prev, [])
  | S k =>
      let (c, loaded) := countdown_tick refreshSec prev in
      let (c', rest) := countdown_run refreshSec k c in
      (c', loaded :: rest)
  end.

(** Integers from 0 to [N] are delivered without rounding. *)
Definition integers_exact (N : Z) : Prop :=
  forall (q : Q) (z : Z), (0 <= z <= N)%Z -> q == inject_Z z ->
    round_nearest q == inject_Z z.

End Countdown.

End Page.

(* ================================================================== *)
(** ** The Decision Gate (specification section 4.4)

    The gate belongs to the Python back end (backend/signals and
    backend/risk in the README's layout), whose source is not available
    here: the definitions of this module follow the words of the
    specification. *)
(* ================================================================== *)

Module Gate.

Inductive RiskLight : Type :=
| GREEN
| YELLOW
| RED.

Inductive Action : Type :=
| ALLOW
| WATCH
| BLOCK.

Inductive Status : Type :=
| PASS
| FAIL
| MISSING.

(** Modelled from the spec: the back end's TriggerResult (its source is not
    available): [{name, status, detail}] of section 3, paired with the
    "required" mark its rule carries in the StrategyProfile. *)
Record TriggerResult : Type := {
  trigger_name : string;
  status : Status;
  detail : string;
  required : bool
}.

(** Modelled from the spec: the back end's data-quality block (its source is
    not available): [data_quality] of the FeatureSnapshot, with the lag in
    seconds, the degraded flag and the missing field names. *)
Record DataQuality : Type := {
  data_lag_sec : Q;
  is_degraded : bool;
  missing_fields : list string
}.

(** Modelled from the spec: the back end's CandidateScore (its source is not
    available): the total and the sub-scores of section 3. *)
Record CandidateScore : Type := {
  total : Q;
  market_context : Q;
  stock_quality : Q;
  risk_penalty : Q
}.

(** Modelled from the spec: the input of the back end's gate (its source is
    not available): what section 4.4 lets the gate read for one (symbol,
    strategy, tick). [candidate] is [None] when the requested symbol is
    absent from the candidate pool; [data_quality] is [None] when the
    snapshot carries no data-quality block. *)
Record GateInput : Type := {
  risk_light : RiskLight;
  data_quality : option DataQuality;
  candidate : option (CandidateScore * list TriggerResult)
}.

(** Modelled from the spec: the configuration of the back end's gate (its
    source is not available): the tunable parameters of section 4.4, whose
    penalty weights section 9 leaves to configuration. *)
Record GateConfig : Type := {
  max_data_lag_sec : Q;
  allow_floor : Q;
  missing_penalty : Q;
  yellow_penalty : Q
}.

(** Modelled from the spec: the default ALLOW floor of the back end's
    configuration (its source is not available): "the configured ALLOW
    floor (0.6 by default)". *)
Definition default_allow_floor : Q := 6 # 10.

(** Modelled from the spec: the back end's Decision (its source is not
    available), as far as the gate fills it: action, confidence and
    warnings of section 3. *)
Record Decision : Type := {
  action : Action;
  confidence : Q;
  warnings : list string
}.

Definition status_eqb (a b : Status) : bool :=
  match a, b with
  | PASS, PASS | FAIL, FAIL | MISSING, MISSING => true
  | _, _ => false
  end.

Definition count_status (st : Status) (l : list TriggerResult) : nat :=
  List.length (filter (fun t => status_eqb (status t) st) l).

Definition clamp01 (q : Q) : Q :=
  if Qle_bool q 0 then 0 else if Qle_bool 1 q then 1 else q.

(** Modelled from the spec: the back end's confidence computation (its
    source is not available): "Confidence is computed from: fraction of
    rules PASS, a penalty per MISSING rule, and a penalty when risk light is
    YELLOW", kept within [0, 1] as section 3 asks. With no rule at all the
    fraction is 0. *)
Definition compute_confidence (cfg : GateConfig) (light : RiskLight)
  (l : list TriggerResult) : Q :=
  clamp01
    (inject_Z (Z.of_nat (count_status PASS l)) / inject_Z (Z.of_nat (List.length l))
     - missing_penalty cfg * inject_Z (Z.of_nat (count_status MISSING l))
     - match light with YELLOW => yellow_penalty cfg | _ => 0 end).

Definition required_with (st : Status) (l : list TriggerResult) : bool :=
  existsb (fun t => required t && status_eqb (status t) st) l.

(** Modelled from the spec: the back end's forced-BLOCK test (its source is
    not available): "BLOCK is forced, irrespective of score or triggers,
    when: risk light is RED, OR any rule marked required has status FAIL, OR
    the requested symbol is absent from the candidate pool". *)
Definition block_forced (inp : GateInput) : bool :=
  match risk_light inp with
  | RED => true
  | _ =>
      match candidate inp with
      | None => true
      | Some (_, l) => required_with FAIL l
      end
  end.

(** Modelled from the spec: the back end's reading of the degraded flag (its
    source is not available): "Absence of strategy_context.data_quality
    must be treated as is_degraded=true" (section 6). *)
Definition degraded (inp : GateInput) : bool :=
  match data_quality inp with
  | None => true
  | Some dq => is_degraded dq
  end.

(** Modelled from the spec: the back end's lag test (its source is not
    available): "data lag exceeds the configured maximum". *)
Definition lag_exceeded (cfg : GateConfig) (inp : GateInput) : bool :=
  match data_quality inp with
  | None => false
  | Some dq => negb (Qle_bool (data_lag_sec dq) (max_data_lag_sec cfg))
  end.

(** Modelled from the spec: the back end's forced-WATCH test (its source is
    not available): "WATCH is forced (ALLOW is forbidden) when:
    data_quality.degraded is true, OR data lag exceeds the configured
    maximum, OR computed confidence < the configured ALLOW floor, OR any
    required rule has status MISSING". *)
Definition watch_forced (cfg : GateConfig) (inp : GateInput) (conf : Q)
  (l : list TriggerResult) : bool :=
  degraded inp || lag_exceeded cfg inp
  || negb (Qle_bool (allow_floor cfg) conf)
  || required_with MISSING l.

Definition warn (b : bool) (msg : string) : list string :=
  if b then [msg] else [].

(** Modelled from the spec: the back end's Decision Gate (its source is not
    available): the three-state machine of section 4.4. The forced rules
    come first; where none applies, ALLOW is permitted and the action is the
    one [base_action] draws from score and triggers (the specification
    leaves that choice to the strategy). An unknown symbol has no trigger
    list: its confidence is 0. Every forced rule that fired leaves a
    warning. *)
Definition decision_gate
  (base_action : CandidateScore -> list TriggerResult -> Action)
  (cfg : GateConfig) (inp : GateInput) : Decision :=
  match candidate inp with
  | None =>
      {| action := BLOCK;
         confidence := 0;
         warnings :=
           (warn match risk_light inp with RED => true | _ => false end
              "risk light is RED"
            ++ ["symbol is not in the candidate set"])%list |}
  | Some (score, l) =>
      let conf := compute_confidence cfg (risk_light inp) l in
      if block_forced inp then
        {| action := BLOCK;
           confidence := conf;
           warnings :=
             (warn match risk_light inp with RED => true | _ => false end
                "risk light is RED"
              ++ warn (required_with FAIL l) "a required rule failed")%list |}
      else if watch_forced cfg inp conf l then
        {| action := WATCH;
           confidence := conf;
           warnings :=
             (warn (degraded inp) "data quality is degraded"
              ++ warn (lag_exceeded cfg inp) "data lag exceeds the maximum"
              ++ warn (negb (Qle_bool (allow_floor cfg) conf))
                   "confidence is below the ALLOW floor"
              ++ warn (required_with MISSING l) "a required rule is MISSING")%list |}
      else
        {| action := base_action score l; confidence := conf; warnings := [] |}
  end.

End Gate.

(* ================================================================== *)
(** ** Concrete inputs on which the sources are evaluated below *)
(* ================================================================== *)

Module Sample.
Import JS.

(** A platform to evaluate on: no rounding (the sample values need none),
    no environment variable, dates printed as they are written. *)
Definition platform : Platform :=
  {| round_nearest := fun q => q;
     shortest_digits := fun _ => (1%positive, 22%Z);
     Date_toLocaleTimeString := fun ts => ts;
     Date_toLocaleString := fun ts => ts;
     NEXT_PUBLIC_API_URL := None |}.

Definition stock (sym nm : string) (amt : Q) : Page.Stock :=
  {| Page.symbol := Some sym; Page.name := Some nm;
     Page.amount := Some (Fin amt); Page.close := None;
     Page.pct_change := None |}.

(** 120 limit-ups, no limit-down, bomb rate 0.1: a strong market. *)
Definition market_strong : Page.Market :=
  {| Page.limit_up_stocks := Some (repeat (stock "600000" "浦发银行" 200000000) 120);
     Page.limit_down_stocks := None;
     Page.bomb_rate := Some (Fin (1 # 10)) |}.

(** The same market with a bomb rate of 0.5. *)
Definition market_bombed : Page.Market :=
  {| Page.limit_up_stocks := Page.limit_up_stocks market_strong;
     Page.limit_down_stocks := None;
     Page.bomb_rate := Some (Fin (1 # 2)) |}.

(** The same market with 60 limit-ups. *)
Definition market_fewer : Page.Market :=
  {| Page.limit_up_stocks := Some (repeat (stock "600000" "浦发银行" 200000000) 60);
     Page.limit_down_stocks := None;
     Page.bomb_rate := Some (Fin (1 # 10)) |}.

(** The default filter of the page: the four boards other than Beijing,
    no ST stock, no floor on the amount; and the same with a floor of 1. *)
Definition filter_default : Page.FilterConfig :=
  {| Page.exchanges := ["SH"; "SZ"; "CYB"; "KCB"];
     Page.showST := false;
     Page.minAmount := Fin 0 |}.

Definition filter_floor : Page.FilterConfig :=
  {| Page.exchanges := ["SH"; "SZ"; "CYB"; "KCB"];
     Page.showST := false;
     Page.minAmount := Fin 1 |}.

Definition stocks : list Page.Stock :=
  [ stock "600000" "浦发银行" 250000000;
    stock "830001" "北交个股" 300000000;
    stock "000002" "*ST万科" 900000000;
    stock "300750" "宁德时代" 50000000;
    stock "600000" "浦发银行" 250000000 ].

(** The decision inputs of the specification's scenarios: a YELLOW light
    with fresh data and six required rules passed; the same under a RED
    light; the same with degraded data 45 seconds old. *)
Definition config : Gate.GateConfig :=
  {| Gate.max_data_lag_sec := 20;
     Gate.allow_floor := Gate.default_allow_floor;
     Gate.missing_penalty := 1 # 10;
     Gate.yellow_penalty := 1 # 10 |}.

Definition rule (nm : string) (st : Gate.Status) : Gate.TriggerResult :=
  {| Gate.trigger_name := nm; Gate.status := st; Gate.detail := "";
     Gate.required := true |}.

Definition all_pass : list Gate.TriggerResult :=
  [ rule "reseal_speed_sec" Gate.PASS; rule "reseal_stable_min" Gate.PASS;
    rule "slope_5m" Gate.PASS; rule "pullback_5m" Gate.PASS;
    rule "amt" Gate.PASS; rule "open_count_30m" Gate.PASS ].

Definition one_missing : list Gate.TriggerResult :=
  [ rule "reseal_speed_sec" Gate.PASS; rule "reseal_stable_min" Gate.PASS;
    rule "slope_5m" Gate.PASS; rule "pullback_5m" Gate.MISSING;
    rule "amt" Gate.PASS; rule "open_count_30m" Gate.PASS ].

Definition score : Gate.CandidateScore :=
  {| Gate.total := 824 # 10; Gate.market_context := 78;
     Gate.stock_quality := 84; Gate.risk_penalty := 8 |}.

Definition fresh : Gate.DataQuality :=
  {| Gate.data_lag_sec := 2; Gate.is_degraded := false; Gate.missing_fields := [] |}.

Definition stale : Gate.DataQuality :=
  {| Gate.data_lag_sec := 45; Gate.is_degraded := true;
     Gate.missing_fields := ["pullback_5m"] |}.

(** Fresh by its flag, yet 45 seconds old. *)
Definition lagging : Gate.DataQuality :=
  {| Gate.data_lag_sec := 45; Gate.is_degraded := false; Gate.missing_fields := [] |}.

Definition input_lagging : Gate.GateInput :=
  {| Gate.risk_light := Gate.GREEN; Gate.data_quality := Some lagging;
     Gate.candidate := Some (score, all_pass) |}.


Definition input_red : Gate.GateInput :=
  {| Gate.risk_light := Gate.RED; Gate.data_quality := Some fresh;
     Gate.candidate := Some (score, all_pass) |}.

Definition input_stale : Gate.GateInput :=
  {| Gate.risk_light := Gate.GREEN; Gate.data_quality := Some stale;
     Gate.candidate := Some (score, one_missing) |}.

(** A strategy that proposes ALLOW whatever the score and the triggers. *)
Definition eager : Gate.CandidateScore -> list Gate.TriggerResult -> Gate.Action :=
  fun _ _ => Gate.ALLOW.







Definition alert : Page.Alert :=
  {| Page.alert_id := "a-20260112-001";
     Page.alert_action := "ALLOW";
     Page.user_label := None |}.

End Sample.

(* ================================================================== *)
(** * Properties *)
(* ================================================================== *)

(** ** The comparisons on doubles *)

Lemma Qle_bool_false (a b : Q) : Qle_bool a b = false -> b < a.
Proof.
  intros E. apply Qnot_le_lt. intros L. apply Qle_bool_iff in L. congruence.
Qed.

(** Turns the boolean comparisons of the context into propositions. *)
Ltac qbool :=
  repeat match goal with
  | E : Qle_bool _ _ = true |- _ => apply Qle_bool_iff in E
  | E : Qle_bool _ _ = false |- _ => apply Qle_bool_false in E
  end.

Lemma Qlt_bool_true (a b : Q) : JS.Qlt_bool a b = true <-> a < b.
Proof.
  unfold JS.Qlt_bool. rewrite negb_true_iff. split.
  - apply Qle_bool_false.
  - intros H. destruct (Qle_bool b a) eqn:E; [|reflexivity].
    qbool. exfalso. apply (Qlt_not_le _ _ H E).
Qed.

Lemma Qlt_bool_false (a b : Q) : JS.Qlt_bool a b = false <-> b <= a.
Proof.
  unfold JS.Qlt_bool. rewrite negb_false_iff. apply Qle_bool_iff.
Qed.

Lemma num_lt_mono (a b t : JS.number) :
  JS.num_le a b = true -> JS.num_lt b t = true -> JS.num_lt a t = true.
Proof.
  destruct a, b, t; simpl; try congruence; try reflexivity.
  rewrite Qle_bool_iff, !Qlt_bool_true. intros L H.
  eapply Qle_lt_trans; eassumption.
Qed.

Lemma num_gt_mono (a b t : JS.number) :
  JS.num_le a b = true -> JS.num_gt a t = true -> JS.num_gt b t = true.
Proof.
  unfold JS.num_gt. destruct a, b, t; simpl; try congruence; try reflexivity.
  rewrite Qle_bool_iff, !Qlt_bool_true. intros L H.
  eapply Qlt_le_trans; eassumption.
Qed.

(** On doubles other than NaN, "not less than" is "at least". *)
Lemma num_lt_negb_ge (a t : JS.number) :
  a <> JS.NaN -> t <> JS.NaN -> negb (JS.num_lt a t) = JS.num_ge a t.
Proof.
  unfold JS.num_ge. destruct a, t; simpl; try congruence; try reflexivity.
  intros _ _. unfold JS.Qlt_bool. apply negb_involutive.
Qed.

Lemma or_number_not_NaN (v : option JS.number) (d : JS.number) :
  d <> JS.NaN -> JS.or_number v d <> JS.NaN.
Proof.
  intros Hd. destruct v as [[| | |q]|]; simpl; try assumption; try discriminate.
  destruct (Qeq_bool q 0); simpl; [assumption|discriminate].
Qed.

Lemma num_le_refl (a : JS.number) : a <> JS.NaN -> JS.num_le a a = true.
Proof.
  destruct a; simpl; try congruence. intros _. apply Qle_bool_iff, Qle_refl.
Qed.

(** ** getMarketMood is monotone (C4) *)

Lemma mood_rank_cases (m : Page.Market) :
  (Page.mood_rank (Page.getMarketMood m) = 3%nat /\
     (100 <? Page.limitUp m)%nat && JS.num_lt (Page.bombRate m) (JS.Fin Page.d0_2) = true)
  \/ (Page.mood_rank (Page.getMarketMood m) = 2%nat /\
     (50 <? Page.limitUp m)%nat && JS.num_lt (Page.bombRate m) (JS.Fin Page.d0_3) = true)
  \/ (Page.mood_rank (Page.getMarketMood m) = 1%nat /\
     (50 <? Page.limitDown m)%nat || JS.num_gt (Page.bombRate m) (JS.Fin Page.d0_4) = false)
  \/ Page.mood_rank (Page.getMarketMood m) = 0%nat.
Proof.
  unfold Page.getMarketMood.
  destruct ((100 <? Page.limitUp m)%nat && _) eqn:C1; [left; split; reflexivity|].
  destruct ((50 <? Page.limitUp m)%nat && _) eqn:C2; [right; left; split; reflexivity|].
  destruct ((50 <? Page.limitDown m)%nat || _) eqn:C3.
  - right; right; right. reflexivity.
  - right; right; left. split; reflexivity.
Qed.

(** Fewer limit-ups and a higher bomb rate together never improve the mood. *)
Lemma market_mood_antitone (m m' : Page.Market) :
  Page.limitDown m' = Page.limitDown m ->
  (Page.limitUp m' <= Page.limitUp m)%nat ->
  JS.num_le (Page.bombRate m) (Page.bombRate m') = true ->
  (Page.mood_rank (Page.getMarketMood m') <= Page.mood_rank (Page.getMarketMood m))%nat.
Proof.
  intros Hd Hu Hb.
  destruct (mood_rank_cases m') as [[R' C']|[[R' C']|[[R' C']|R']]]; rewrite R'.
  - (* m' is 强势: so is m *)
    apply andb_true_iff in C'. destruct C' as [U B].
    apply Nat.ltb_lt in U. apply (num_lt_mono _ _ _ Hb) in B.
    unfold Page.getMarketMood.
    replace (100 <? Page.limitUp m)%nat with true by (symmetry; apply Nat.ltb_lt; lia).
    rewrite B. cbn. apply Nat.le_refl.
  - (* m' is 偏强: m is 偏强 or 强势 *)
    apply andb_true_iff in C'. destruct C' as [U B].
    apply Nat.ltb_lt in U. apply (num_lt_mono _ _ _ Hb) in B.
    unfold Page.getMarketMood.
    destruct ((100 <? Page.limitUp m)%nat && _); [cbn; lia|].
    replace (50 <? Page.limitUp m)%nat with true by (symmetry; apply Nat.ltb_lt; lia).
    rewrite B. cbn. apply Nat.le_refl.
  - (* m' is 震荡: m is not 弱势 *)
    apply orb_false_iff in C'. destruct C' as [D G].
    unfold Page.getMarketMood.
    destruct ((100 <? Page.limitUp m)%nat && _); [cbn; lia|].
    destruct ((50 <? Page.limitUp m)%nat && _); [cbn; lia|].
    rewrite <- Hd, D. cbn [orb].
    destruct (JS.num_gt (Page.bombRate m) (JS.Fin Page.d0_4)) eqn:G0.
    + apply (num_gt_mono _ _ _ Hb) in G0. congruence.
    + cbn. apply Nat.le_refl.
  - apply Nat.le_0_l.
Qed.

Lemma bombRate_not_NaN (m : Page.Market) : Page.bombRate m <> JS.NaN.
Proof. apply or_number_not_NaN. discriminate. Qed.

(** C4. All other inputs held fixed, a higher bomb rate never improves the
    market mood computed by getMarketMood, and a lower limit-up count never
    improves it, in the order 强势 > 偏强 > 震荡 > 弱势 ([mood_rank] 3, 2, 1,
    0). The bomb rate is the one getMarketMood reads, [market.bomb_rate || 0];
    the counts are the lengths of the limit-up and limit-down lists. *)
Theorem getMarketMood_monotone :
  (forall m m' : Page.Market,
     Page.limit_up_stocks m' = Page.limit_up_stocks m ->
     Page.limit_down_stocks m' = Page.limit_down_stocks m ->
     JS.num_le (Page.bombRate m) (Page.bombRate m') = true ->
     (Page.mood_rank (Page.getMarketMood m') <= Page.mood_rank (Page.getMarketMood m))%nat)
  /\
  (forall m m' : Page.Market,
     Page.bomb_rate m' = Page.bomb_rate m ->
     Page.limit_down_stocks m' = Page.limit_down_stocks m ->
     (Page.limitUp m' <= Page.limitUp m)%nat ->
     (Page.mood_rank (Page.getMarketMood m') <= Page.mood_rank (Page.getMarketMood m))%nat).
Proof.
  split; intros m m' H1 H2 H3.
  - apply market_mood_antitone; trivial.
    + unfold Page.limitDown. now rewrite H2.
    + unfold Page.limitUp. rewrite H1. apply Nat.le_refl.
  - apply market_mood_antitone; trivial.
    + unfold Page.limitDown. now rewrite H2.
    + unfold Page.bombRate. rewrite H1. apply num_le_refl, bombRate_not_NaN.
Qed.

Lemma getMarketMood_monotone_witness :
  Page.text (Page.getMarketMood Sample.market_strong) = "强势"
  /\ Page.text (Page.getMarketMood Sample.market_bombed) = "弱势"
  /\ Page.text (Page.getMarketMood Sample.market_fewer) = "偏强"
  /\ (Page.mood_rank (Page.getMarketMood Sample.market_bombed)
      <= Page.mood_rank (Page.getMarketMood Sample.market_strong))%nat
  /\ (Page.mood_rank (Page.getMarketMood Sample.market_fewer)
      <= Page.mood_rank (Page.getMarketMood Sample.market_strong))%nat.
Proof.
  split; [reflexivity|]. split; [reflexivity|]. split; [reflexivity|]. split.
  - apply (proj1 getMarketMood_monotone Sample.market_strong Sample.market_bombed);
      reflexivity.
  - apply (proj2 getMarketMood_monotone Sample.market_strong Sample.market_fewer);
      [reflexivity | reflexivity | vm_compute; lia].
Defined.

(** ** Risk light rendering (C9) *)

(** C9. Every input of getRiskLightClass and getRiskLightText other than the
    strings 'GREEN', 'YELLOW' and 'RED' (the empty string and a missing
    light included) is rendered as the green light: class
    'risk-light-green', text '🟢 绿灯'. *)
Theorem unknown_risk_light_renders_green (light : JS.maybe string) :
  light <> JS.Value "GREEN" ->
  light <> JS.Value "YELLOW" ->
  light <> JS.Value "RED" ->
  Utils.getRiskLightClass light = "risk-light-green"
  /\ Utils.getRiskLightText light = "🟢 绿灯".
Proof.
  intros HG HY HR. destruct light as [| |s]; [split; reflexivity ..|].
  unfold Utils.getRiskLightClass, Utils.getRiskLightText.
  destruct (String.eqb s "GREEN") eqn:EG; [split; reflexivity|].
  destruct (String.eqb s "YELLOW") eqn:EY.
  { apply String.eqb_eq in EY. subst s. now elim HY. }
  destruct (String.eqb s "RED") eqn:ER.
  { apply String.eqb_eq in ER. subst s. now elim HR. }
  split; reflexivity.
Qed.

Lemma unknown_risk_light_renders_green_witness :
  (Utils.getRiskLightClass (JS.Value "") = "risk-light-green"
   /\ Utils.getRiskLightText (JS.Value "") = "🟢 绿灯")
  /\ (Utils.getRiskLightClass JS.Undefined = "risk-light-green"
      /\ Utils.getRiskLightText JS.Undefined = "🟢 绿灯")
  /\ (Utils.getRiskLightClass (JS.Value "red") = "risk-light-green"
      /\ Utils.getRiskLightText (JS.Value "red") = "🟢 绿灯").
Proof.
  split; [|split].
  - apply (unknown_risk_light_renders_green (JS.Value "")); discriminate.
  - apply (unknown_risk_light_renders_green JS.Undefined); discriminate.
  - apply (unknown_risk_light_renders_green (JS.Value "red")); discriminate.
Defined.

(** The three known lights keep their own class and text. *)
Lemma known_risk_lights :
  Utils.getRiskLightClass (JS.Value "GREEN") = "risk-light-green"
  /\ Utils.getRiskLightClass (JS.Value "YELLOW") = "risk-light-yellow"
  /\ Utils.getRiskLightClass (JS.Value "RED") = "risk-light-red"
  /\ Utils.getRiskLightText (JS.Value "GREEN") = "🟢 绿灯"
  /\ Utils.getRiskLightText (JS.Value "YELLOW") = "🟡 黄灯"
  /\ Utils.getRiskLightText (JS.Value "RED") = "🔴 红灯".
Proof. repeat split. Qed.

(** ** getRegimeText (C7) *)

(** The five mode labels are mapped to five distinct, non-empty texts. *)
Lemma getRegimeText_modes :
  Utils.getRegimeText "STRONG" = Utils.VString "强势"
  /\ Utils.getRegimeText "NORMAL" = Utils.VString "正常"
  /\ Utils.getRegimeText "DIVERGENCE" = Utils.VString "分化"
  /\ Utils.getRegimeText "WEAK" = Utils.VString "弱势"
  /\ Utils.getRegimeText "CHAOS" = Utils.VString "混沌"
  /\ NoDup (map snd Utils.regime_map)
  /\ Forall (fun kv => snd kv <> "") Utils.regime_map.
Proof.
  repeat (split; [reflexivity|]). split.
  - repeat constructor; simpl; intuition discriminate.
  - repeat constructor; simpl; discriminate.
Qed.

Lemma own_property_None (own : list (string * string)) (key : string) :
  ~ In key (map fst own) -> Utils.own_property own key = None.
Proof.
  induction own as [|[k v] rest IH]; intros Hn; [reflexivity|].
  cbn [Utils.own_property]. destruct (String.eqb k key) eqn:E.
  - apply String.eqb_eq in E. exfalso. apply Hn. left. exact E.
  - apply IH. intros Hin. apply Hn. right. exact Hin.
Qed.

(** A string that is neither a mode label nor the name of a member of
    Object.prototype comes back unchanged. *)
Lemma getRegimeText_other (regime : string) :
  ~ In regime (map fst Utils.regime_map) ->
  ~ In regime Utils.Object_prototype_members ->
  Utils.getRegimeText regime = Utils.VString regime.
Proof.
  intros Hm Hp. unfold Utils.getRegimeText, Utils.get_property.
  rewrite (own_property_None _ _ Hm).
  destruct (existsb (String.eqb regime) Utils.Object_prototype_members) eqn:Ex.
  - apply existsb_exists in Ex. destruct Ex as [x [Hx Ex]].
    apply String.eqb_eq in Ex. subst x. contradiction.
  - reflexivity.
Qed.

(** C7, where the code departs from it: the table of getRegimeText is an
    object literal, so [map[regime]] also finds what the literal inherits
    from Object.prototype. For the input 'constructor' (not one of the five
    mode labels) the lookup is truthy and getRegimeText returns the inherited
    member, not the input string. *)
Theorem getRegimeText_constructor :
  ~ In "constructor" (map fst Utils.regime_map)
  /\ Utils.getRegimeText "constructor" = Utils.VInherited "constructor"
  /\ Utils.getRegimeText "constructor" <> Utils.VString "constructor".
Proof.
  split; [|split].
  - simpl. intuition discriminate.
  - reflexivity.
  - discriminate.
Qed.

(** ** filterStocks (C10) *)

Lemma startsWith_spec (s pre : string) :
  JS.startsWith s pre = true <-> Page.starts_with s pre.
Proof. unfold JS.startsWith, Page.starts_with. apply prefix_correct. Qed.

Lemma includes_spec (s pat : string) :
  pat <> "" -> (JS.includes s pat = true <-> Page.contains s pat).
Proof.
  intros Hne. unfold JS.includes, Page.contains.
  destruct (index 0 pat s) as [m|] eqn:E; split; intros H.
  - exists m. eapply index_correct1. exact E.
  - reflexivity.
  - discriminate.
  - destruct H as [m Hm]. exfalso.
    apply (index_correct3 0 m pat s E Hne (Nat.le_0_l m) Hm).
Qed.

Lemma includes_false_spec (s pat : string) :
  pat <> "" -> (JS.includes s pat = false <-> ~ Page.contains s pat).
Proof.
  intros Hne. rewrite <- (includes_spec s pat Hne).
  destruct (JS.includes s pat); split; congruence.
Qed.

(** [find] on the option table returns the option itself: the values of
    EXCHANGE_OPTIONS are pairwise distinct. *)
Lemma find_exchange_option (opt : Page.ExchangeOption) :
  In opt Page.EXCHANGE_OPTIONS ->
  find (fun o => String.eqb (Page.value o) (Page.value opt)) Page.EXCHANGE_OPTIONS
  = Some opt.
Proof.
  simpl. intros [H|[H|[H|[H|[H|[]]]]]]; subst opt; reflexivity.
Qed.

Lemma matchExchange_spec (exs : list string) (sym : string) :
  Page.matchExchange exs sym = true <->
  exists opt, In opt Page.EXCHANGE_OPTIONS /\ In (Page.value opt) exs
              /\ Page.starts_with sym (Page.prefix opt).
Proof.
  induction exs as [|ex rest IH].
  - simpl. split; [discriminate|]. intros [opt [_ [[] _]]].
  - cbn [Page.matchExchange].
    destruct (find (fun o => String.eqb (Page.value o) ex) Page.EXCHANGE_OPTIONS)
      as [o|] eqn:F.
    + pose proof (find_some _ _ F) as [Hin Hv]. apply String.eqb_eq in Hv.
      destruct (JS.startsWith sym (Page.prefix o)) eqn:S.
      * split; [intros _|reflexivity].
        exists o. split; [exact Hin|]. split; [left; symmetry; exact Hv|].
        apply startsWith_spec. exact S.
      * rewrite IH. split.
        -- intros [opt [H1 [H2 H3]]]. exists opt. split; [exact H1|].
           split; [right; exact H2|exact H3].
        -- intros [opt [H1 [[H2|H2] H3]]].
           ++ exfalso. pose proof (find_exchange_option opt H1) as F'.
              rewrite <- H2 in F'. rewrite F in F'. injection F' as ->.
              apply startsWith_spec in H3. congruence.
           ++ exists opt. split; [exact H1|]. split; [exact H2|exact H3].
    + rewrite IH. split.
      * intros [opt [H1 [H2 H3]]]. exists opt. split; [exact H1|].
        split; [right; exact H2|exact H3].
      * intros [opt [H1 [[H2|H2] H3]]].
        -- exfalso. pose proof (find_exchange_option opt H1) as F'.
           rewrite <- H2 in F'. congruence.
        -- exists opt. split; [exact H1|]. split; [exact H2|exact H3].
Qed.

Section FilterFacts.
Context {P : JS.Platform}.

Lemma to_double_not_NaN (r : Q) : JS.to_double r <> JS.NaN.
Proof.
  unfold JS.to_double. destruct (Qle_bool _ _); [destruct (JS.Qlt_bool r 0)|];
    discriminate.
Qed.

(** The product of a positive double and a positive finite one is a number. *)
Lemma fl_mul_positive_not_NaN (a : JS.number) (c : Q) :
  JS.num_gt a (JS.Fin 0) = true -> 0 < c -> JS.fl_mul a (JS.Fin c) <> JS.NaN.
Proof.
  intros Ha Hc. destruct a as [| | |q]; simpl in Ha; try discriminate.
  - simpl. destruct (Qeq_bool c 0) eqn:E.
    + apply Qeq_bool_iff in E. rewrite E in Hc. now apply Qlt_irrefl in Hc.
    + destruct (JS.Qlt_bool c 0); discriminate.
  - simpl. apply to_double_not_NaN.
Qed.

(** The callback of filterStocks decides the selection of the specification. *)
Lemma keepStock_spec (cfg : Page.FilterConfig) (stock : Page.Stock) :
  Page.keepStock cfg stock = true <-> Page.selected cfg stock.
Proof.
  unfold Page.keepStock, Page.selected.
  set (sym := JS.or_string (Page.symbol stock) "").
  set (nm := JS.or_string (Page.name stock) "").
  set (amt := JS.or_number (Page.amount stock) (JS.Fin 0)).
  set (thr := JS.fl_mul (Page.minAmount cfg) (JS.Fin 100000000)).
  rewrite <- matchExchange_spec.
  destruct (Page.matchExchange (Page.exchanges cfg) sym); cbn [negb andb orb];
    [|split; [discriminate|intros [H _]; discriminate]].
  assert (ST : JS.includes nm "ST" || JS.includes nm "*" = false <->
               ~ Page.contains nm "ST" /\ ~ Page.contains nm "*").
  { rewrite orb_false_iff, !includes_false_spec by discriminate. tauto. }
  assert (AM : JS.num_gt (Page.minAmount cfg) (JS.Fin 0) = true ->
               (negb (JS.num_lt amt thr) = JS.num_ge amt thr)).
  { intros Hpos. apply num_lt_negb_ge.
    - apply or_number_not_NaN. discriminate.
    - apply fl_mul_positive_not_NaN; [exact Hpos|reflexivity]. }
  destruct (Page.showST cfg); cbn [negb andb orb].
  - destruct (JS.num_gt (Page.minAmount cfg) (JS.Fin 0)) eqn:G.
    + rewrite <- (AM eq_refl). destruct (JS.num_lt amt thr); cbn [negb andb orb].
      * split; [discriminate|]. intros [_ [_ H]]. specialize (H eq_refl). discriminate.
      * split; [|reflexivity]. intros _. split; [reflexivity|].
        split; [discriminate|reflexivity].
    + split; [|reflexivity]. intros _. split; [reflexivity|].
      split; discriminate.
  - destruct (JS.includes nm "ST" || JS.includes nm "*") eqn:I.
    + split; [discriminate|]. intros [_ [H _]]. specialize (H eq_refl).
      apply ST in H. discriminate.
    + pose proof (proj1 ST eq_refl) as HST.
      destruct (JS.num_gt (Page.minAmount cfg) (JS.Fin 0)) eqn:G.
      * rewrite <- (AM eq_refl). destruct (JS.num_lt amt thr); cbn [negb andb orb].
        -- split; [discriminate|]. intros [_ [_ H]]. specialize (H eq_refl).
           discriminate.
        -- split; [|reflexivity]. intros _. split; [reflexivity|].
           split; [intros _; exact HST|reflexivity].
      * split; [|reflexivity]. intros _. split; [reflexivity|].
        split; [intros _; exact HST|discriminate].
Qed.

Lemma keepStock_false_spec (cfg : Page.FilterConfig) (stock : Page.Stock) :
  Page.keepStock cfg stock = false <-> ~ Page.selected cfg stock.
Proof.
  rewrite <- keepStock_spec. destruct (Page.keepStock cfg stock); split; congruence.
Qed.

Lemma filter_picks {A : Type} (f : A -> bool) (sel : A -> Prop) (l : list A) :
  (forall x, f x = true <-> sel x) -> Page.picks sel l (filter f l).
Proof.
  intros Hf. induction l as [|x l IH]; simpl.
  - constructor.
  - destruct (f x) eqn:E.
    + apply Page.picks_keep; [apply Hf; exact E|exact IH].
    + apply Page.picks_skip; [|exact IH].
      intros Hs. apply Hf in Hs. congruence.
Qed.

(** [picks] leaves no choice: the result is determined by the input. *)
Lemma picks_functional {A : Type} (sel : A -> Prop) (l r1 r2 : list A) :
  Page.picks sel l r1 -> Page.picks sel l r2 -> r1 = r2.
Proof.
  intros H1. revert r2. induction H1; intros r2 H2; inversion H2; subst;
    try contradiction; try reflexivity.
  - f_equal. apply IHpicks. assumption.
  - apply IHpicks. assumption.
Qed.

(** C10. For every filter configuration and stock list, filterStocks
    returns the input with exactly the selected elements kept, in their
    original order and as often as they occur ([picks]): an element is in the
    output if and only if it is in the input and selected, where selected
    means: its symbol starts with the prefix of a selected exchange, its
    name contains neither 'ST' nor '*' when showST is false, and its amount
    is at least minAmount x 100000000 when minAmount is positive. A missing
    list gives the empty list. *)
Theorem filterStocks_selects (cfg : Page.FilterConfig) (stocks : list Page.Stock) :
  Page.picks (Page.selected cfg) stocks (Page.filterStocks cfg (Some stocks))
  /\ (forall s : Page.Stock,
        In s (Page.filterStocks cfg (Some stocks)) <->
        In s stocks /\ Page.selected cfg s)
  /\ (List.length (Page.filterStocks cfg (Some stocks)) <= List.length stocks)%nat
  /\ Page.filterStocks cfg None = [].
Proof.
  split; [|split; [|split]].
  - apply filter_picks. intros x. apply keepStock_spec.
  - intros s. unfold Page.filterStocks. rewrite filter_In, keepStock_spec. tauto.
  - apply filter_length_le.
  - reflexivity.
Qed.

(** A list without repetition is filtered into one without repetition. *)
Lemma filterStocks_NoDup (cfg : Page.FilterConfig) (stocks : list Page.Stock) :
  NoDup stocks -> NoDup (Page.filterStocks cfg (Some stocks)).
Proof. apply NoDup_filter. Qed.

End FilterFacts.

(** filterStocks on the sample list: the Beijing stock and the ST stock go,
    both occurrences of 600000 stay in place; a floor of 1 on the amount also
    drops the stock that traded 50 million. *)
Example filterStocks_default :
  @Page.filterStocks Sample.platform Sample.filter_default (Some Sample.stocks)
  = [ Sample.stock "600000" "浦发银行" 250000000;
      Sample.stock "300750" "宁德时代" 50000000;
      Sample.stock "600000" "浦发银行" 250000000 ].
Proof. reflexivity. Qed.

Example filterStocks_floor :
  @Page.filterStocks Sample.platform Sample.filter_floor (Some Sample.stocks)
  = [ Sample.stock "600000" "浦发银行" 250000000;
      Sample.stock "600000" "浦发银行" 250000000 ].
Proof. vm_compute. reflexivity. Qed.

(** ** The label buttons of AlertCard (C5) *)

(** C5. Whatever button of an alert card is clicked, and whether or not the
    request succeeds, every call of updateAlertLabel the click makes is for
    the card's own alert and passes one of 'success', 'fail', 'skip'; and
    each of the three labels is passed by some button of the card. *)
Theorem AlertCard_labels (alert : Page.Alert) :
  (forall (b : Page.Button) (resolved : bool) (alertId lbl : string),
     In b (Page.AlertCard alert) ->
     In (Page.Call_updateAlertLabel alertId lbl) (Page.onClick b resolved) ->
     alertId = Page.alert_id alert /\ In lbl ["success"; "fail"; "skip"])
  /\
  (forall lbl : string,
     In lbl ["success"; "fail"; "skip"] ->
     exists b : Page.Button,
       In b (Page.AlertCard alert)
       /\ forall resolved : bool,
            In (Page.Call_updateAlertLabel (Page.alert_id alert) lbl)
               (Page.onClick b resolved)).
Proof.
  split.
  - intros b resolved alertId lbl Hb Hc.
    simpl in Hb. destruct Hb as [Hb|[Hb|[Hb|[]]]]; subst b;
      cbn [Page.onClick Page.handleLabel] in Hc;
      destruct Hc as [Hc|Hc];
      try (injection Hc as <- <-; split; [reflexivity|simpl; tauto]);
      destruct resolved; simpl in Hc; destruct Hc as [Hc|[]]; discriminate.
  - intros lbl Hl. simpl in Hl. destruct Hl as [<-|[<-|[<-|[]]]].
    + eexists. split; [left; reflexivity|]. intros r. left. reflexivity.
    + eexists. split; [right; left; reflexivity|]. intros r. left. reflexivity.
    + eexists. split; [right; right; left; reflexivity|]. intros r. left. reflexivity.
Qed.

Lemma AlertCard_labels_witness :
  Page.onClick (nth 1 (Page.AlertCard Sample.alert)
                  {| Page.caption := ""; Page.onClick := fun _ => [] |}) true
  = [Page.Call_updateAlertLabel "a-20260112-001" "fail"; Page.Call_onRefresh]
  /\ ("a-20260112-001" = Page.alert_id Sample.alert
      /\ In "fail" ["success"; "fail"; "skip"]).
Proof.
  split; [reflexivity|].
  apply (proj1 (AlertCard_labels Sample.alert)
           (nth 1 (Page.AlertCard Sample.alert)
              {| Page.caption := ""; Page.onClick := fun _ => [] |})
           true "a-20260112-001" "fail").
  - right. left. reflexivity.
  - left. reflexivity.
Defined.

Section ClientFacts.
Context {P : JS.Platform}.

(** The request updateAlertLabel sends carries the label, and only it. *)
Lemma updateAlertLabel_request (alertId lbl : string) :
  Api.method (Api.updateAlertLabel alertId lbl) = Api.PATCH
  /\ Api.body (Api.updateAlertLabel alertId lbl) = Some (Api.JObject [("label", lbl)])
  /\ Api.url (Api.updateAlertLabel alertId lbl)
     = Api.API_BASE ++ "/api/alerts/" ++ alertId ++ "/label".
Proof. repeat split. Qed.

End ClientFacts.

(** ** The query strings of getCandidates and getAlerts (C6) *)

Lemma occurs_app (c : ascii) (a b : string) :
  Api.occurs c (a ++ b) = Api.occurs c a || Api.occurs c b.
Proof.
  induction a as [|d a IH]; simpl; [reflexivity|].
  rewrite IH. apply orb_assoc.
Qed.

(** The serializer writes neither [&] nor [=] for a byte of a name or value. *)
Lemma urlencode_byte_clean (c : ascii) :
  Api.occurs "&" (Api.urlencode_byte c) = false
  /\ Api.occurs "=" (Api.urlencode_byte c) = false.
Proof.
  destruct c as [[] [] [] [] [] [] [] []]; split; vm_compute; reflexivity.
Qed.

Lemma urlencode_clean (s : string) :
  Api.occurs "&" (Api.urlencode s) = false
  /\ Api.occurs "=" (Api.urlencode s) = false.
Proof.
  induction s as [|c s [IH1 IH2]]; simpl; [split; reflexivity|].
  rewrite !occurs_app, IH1, IH2.
  destruct (urlencode_byte_clean c) as [-> ->]. split; reflexivity.
Qed.

Lemma split_on_clean (sep : ascii) (a : string) :
  Api.occurs sep a = false -> Api.split_on sep a = [a].
Proof.
  induction a as [|c a IH]; simpl; [reflexivity|].
  intros H. apply orb_false_iff in H. destruct H as [Hc Ha].
  rewrite Hc, (IH Ha). reflexivity.
Qed.

Lemma split_on_app (sep : ascii) (a b : string) :
  Api.occurs sep a = false ->
  Api.split_on sep (a ++ String sep b) = a :: Api.split_on sep b.
Proof.
  induction a as [|c a IH]; simpl.
  - intros _. rewrite Ascii.eqb_refl. reflexivity.
  - intros H. apply orb_false_iff in H. destruct H as [Hc Ha].
    rewrite Hc, (IH Ha). reflexivity.
Qed.

Lemma before_first_app (sep : ascii) (a b : string) :
  Api.occurs sep a = false ->
  Api.before_first sep (a ++ String sep b) = a
  /\ Api.after_first sep (a ++ String sep b) = Some b.
Proof.
  induction a as [|c a IH]; simpl.
  - intros _. rewrite Ascii.eqb_refl. split; reflexivity.
  - intros H. apply orb_false_iff in H. destruct H as [Hc Ha].
    rewrite Hc. destruct (IH Ha) as [-> ->]. split; reflexivity.
Qed.

Lemma serialize_field_clean (kv : string * string) :
  Api.occurs "&" (Api.serialize_field kv) = false /\ Api.serialize_field kv <> "".
Proof.
  unfold Api.serialize_field. split.
  - rewrite !occurs_app. destruct (urlencode_clean (fst kv)) as [-> _].
    destruct (urlencode_clean (snd kv)) as [-> _]. reflexivity.
  - destruct (Api.urlencode (fst kv)); discriminate.
Qed.

Lemma field_of_piece (kv : string * string) :
  Api.field_of (Api.serialize_field kv) = Api.encode_field kv.
Proof.
  unfold Api.field_of, Api.serialize_field, Api.encode_field.
  change ("=" ++ Api.urlencode (snd kv)) with (String "=" (Api.urlencode (snd kv))).
  destruct (before_first_app "=" (Api.urlencode (fst kv)) (Api.urlencode (snd kv)))
    as [-> ->]; [apply urlencode_clean|reflexivity].
Qed.

Lemma split_serialize (p : Api.URLSearchParams) :
  p <> [] -> Api.split_on "&" (Api.serialize p) = map Api.serialize_field p.
Proof.
  induction p as [|kv rest IH]; [congruence|]. intros _.
  destruct rest as [|kv' rest].
  - simpl. apply split_on_clean, serialize_field_clean.
  - change (Api.serialize (kv :: kv' :: rest))
      with (Api.serialize_field kv ++ String "&" (Api.serialize (kv' :: rest))).
    rewrite split_on_app by apply serialize_field_clean.
    rewrite IH by discriminate. reflexivity.
Qed.

(** Reading back the query written by the serializer gives the pairs that
    were appended, encoded, in their order. *)
Lemma query_fields_serialize (path : string) (p : Api.URLSearchParams) :
  Api.after_first "?" (path ++ "?" ++ Api.serialize p) = Some (Api.serialize p) ->
  Api.query_fields (path ++ "?" ++ Api.serialize p) = map Api.encode_field p.
Proof.
  intros Hq. unfold Api.query_fields. rewrite Hq.
  destruct p as [|kv rest]; [reflexivity|].
  rewrite split_serialize by discriminate.
  set (l := kv :: rest). clearbody l. clear.
  induction l as [|x l IH]; [reflexivity|].
  cbn [map filter]. destruct (serialize_field_clean x) as [_ Hne].
  destruct (String.eqb (Api.serialize_field x) "") eqn:E.
  - apply String.eqb_eq in E. contradiction.
  - cbn [negb map]. rewrite field_of_piece, IH. reflexivity.
Qed.

Lemma truthy_string_spec (s : string) : JS.truthy_string s = true <-> s <> "".
Proof.
  unfold JS.truthy_string. rewrite negb_true_iff. split.
  - intros E ->. discriminate.
  - intros Hne. destruct s; [congruence|reflexivity].
Qed.

(** A base URL without [?] leaves the query of what follows it as it is. *)
Lemma query_fields_base (base endpoint : string) :
  Api.occurs "?" base = false ->
  Api.query_fields (base ++ endpoint) = Api.query_fields endpoint.
Proof.
  intros Hb. unfold Api.query_fields.
  replace (Api.after_first "?" (base ++ endpoint)) with (Api.after_first "?" endpoint);
    [reflexivity|].
  induction base as [|c base IH]; simpl; [reflexivity|].
  simpl in Hb. apply orb_false_iff in Hb. destruct Hb as [Hc Hb].
  rewrite Hc. apply IH, Hb.
Qed.

Section ListingFacts.
Context {P : JS.Platform}.

Lemma getCandidates_fields (strategyId : option string) (top : option JS.number) :
  Api.query_fields (Api.getCandidates_endpoint strategyId top)
  = map Api.encode_field (Api.getCandidates_params strategyId top).
Proof. apply (query_fields_serialize "/api/candidates"). reflexivity. Qed.

Lemma getAlerts_fields (limit : option JS.number) (strategyId : option string) :
  Api.query_fields (Api.getAlerts_endpoint limit strategyId)
  = map Api.encode_field (Api.getAlerts_params limit strategyId).
Proof. apply (query_fields_serialize "/api/alerts"). reflexivity. Qed.

(** The query of getCandidates, field by field. *)
Lemma getCandidates_query (strategyId : option string) (top : option JS.number) :
  Api.query_fields (Api.getCandidates_endpoint strategyId top)
  = (match strategyId with
     | Some s => if JS.truthy_string s then [("strategy_id", Api.urlencode s)] else []
     | None => []
     end
     ++ [("top", Api.urlencode (JS.Number_toString (JS.default_arg top (JS.Fin 30))))])%list.
Proof.
  rewrite getCandidates_fields. unfold Api.getCandidates_params.
  destruct strategyId as [s|]; [destruct (JS.truthy_string s)|]; reflexivity.
Qed.

(** The query of getAlerts, field by field. *)
Lemma getAlerts_query (limit : option JS.number) (strategyId : option string) :
  Api.query_fields (Api.getAlerts_endpoint limit strategyId)
  = (("limit", Api.urlencode (JS.Number_toString (JS.default_arg limit (JS.Fin 200))))
     :: match strategyId with
        | Some s => if JS.truthy_string s then [("strategy_id", Api.urlencode s)] else []
        | None => []
        end)%list.
Proof.
  rewrite getAlerts_fields. unfold Api.getAlerts_params.
  destruct strategyId as [s|]; [destruct (JS.truthy_string s)|]; reflexivity.
Qed.

(** C6, as the code has it. For every call of getCandidates and of
    getAlerts, the query of the request URL has a strategy_id parameter if
    and only if the caller supplied a strategy id that is not the empty
    string; it always has the size bound: [top] (30 when omitted) for
    getCandidates, [limit] (200 when omitted) for getAlerts. The request URL
    is API_BASE followed by that path and query. *)
Theorem listing_query_parameters
  (strategyId : option string) (top limit : option JS.number) :
  (In "strategy_id" (Api.query_names (Api.getCandidates_endpoint strategyId top))
   <-> exists s : string, strategyId = Some s /\ s <> "")
  /\ (In "strategy_id" (Api.query_names (Api.getAlerts_endpoint limit strategyId))
      <-> exists s : string, strategyId = Some s /\ s <> "")
  /\ In ("top", Api.urlencode (JS.Number_toString (JS.default_arg top (JS.Fin 30))))
        (Api.query_fields (Api.getCandidates_endpoint strategyId top))
  /\ In ("limit", Api.urlencode (JS.Number_toString (JS.default_arg limit (JS.Fin 200))))
        (Api.query_fields (Api.getAlerts_endpoint limit strategyId))
  /\ In ("top", "30") (Api.query_fields (Api.getCandidates_endpoint strategyId None))
  /\ In ("limit", "200") (Api.query_fields (Api.getAlerts_endpoint None strategyId))
  /\ Api.url (Api.getCandidates strategyId top)
     = Api.API_BASE ++ Api.getCandidates_endpoint strategyId top
  /\ Api.url (Api.getAlerts limit strategyId)
     = Api.API_BASE ++ Api.getAlerts_endpoint limit strategyId
  /\ (Api.occurs "?" Api.API_BASE = false ->
      Api.query_fields (Api.url (Api.getCandidates strategyId top))
      = Api.query_fields (Api.getCandidates_endpoint strategyId top)
      /\ Api.query_fields (Api.url (Api.getAlerts limit strategyId))
         = Api.query_fields (Api.getAlerts_endpoint limit strategyId)).
Proof.
  unfold Api.query_names.
  rewrite !getCandidates_query, !getAlerts_query.
  assert (S : In "strategy_id"
                (map fst match strategyId with
                         | Some s =>
                             if JS.truthy_string s
                             then [("strategy_id", Api.urlencode s)] else []
                         | None => []
                         end)
              <-> exists s : string, strategyId = Some s /\ s <> "").
  { destruct strategyId as [s|]; [destruct (JS.truthy_string s) eqn:E|]; simpl.
    - split; [intros _|tauto]. exists s. split; [reflexivity|].
      apply truthy_string_spec, E.
    - split; [tauto|]. intros [s' [[= <-] Hne]].
      apply truthy_string_spec in Hne. congruence.
    - split; [tauto|]. intros [s' [[=] _]]. }
  repeat match goal with |- _ /\ _ => split end.
  - rewrite map_app, in_app_iff, S. simpl. intuition discriminate.
  - cbn [map fst In]. rewrite S. intuition discriminate.
  - apply in_or_app. right. left. reflexivity.
  - left. reflexivity.
  - apply in_or_app. right. left. reflexivity.
  - left. reflexivity.
  - reflexivity.
  - reflexivity.
  - intros Hb. rewrite <- getCandidates_query, <- getAlerts_query.
    split; apply query_fields_base, Hb.
Qed.

End ListingFacts.

Lemma listing_query_parameters_witness :
  Api.url (@Api.getCandidates Sample.platform (Some "reseal_v1") None)
  = "http://localhost:8000/api/candidates?strategy_id=reseal_v1&top=30"
  /\ Api.occurs "?" (@Api.API_BASE Sample.platform) = false
  /\ (Api.query_fields (Api.url (@Api.getCandidates Sample.platform (Some "reseal_v1") None))
      = Api.query_fields (@Api.getCandidates_endpoint Sample.platform (Some "reseal_v1") None)
      /\ Api.query_fields (Api.url (@Api.getAlerts Sample.platform None (Some "reseal_v1")))
         = Api.query_fields (@Api.getAlerts_endpoint Sample.platform None (Some "reseal_v1"))).
Proof.
  split; [reflexivity|]. split; [reflexivity|].
  apply (@listing_query_parameters Sample.platform (Some "reseal_v1") None None).
  reflexivity.
Defined.

(** C6, as it is stated, fails for a caller that passes the empty string as
    strategy id: the argument is supplied, and the query has no strategy_id
    parameter, for getCandidates('') and for getAlerts(undefined, ''). *)
Lemma listing_empty_strategy_id :
  (exists s : string, Some "" = Some s)
  /\ Api.url (@Api.getCandidates Sample.platform (Some "") None)
     = "http://localhost:8000/api/candidates?top=30"
  /\ ~ In "strategy_id"
        (Api.query_names (@Api.getCandidates_endpoint Sample.platform (Some "") None))
  /\ Api.url (@Api.getAlerts Sample.platform None (Some ""))
     = "http://localhost:8000/api/alerts?limit=200"
  /\ ~ In "strategy_id"
        (Api.query_names (@Api.getAlerts_endpoint Sample.platform None (Some ""))).
Proof.
  split; [exists ""; reflexivity|]. split; [reflexivity|]. split.
  - cbv. intros [H|[]]. discriminate.
  - split; [reflexivity|]. cbv. intros [H|[]]. discriminate.
Qed.

(** Two calls the page makes, and one with a strategy id. *)
Example getCandidates_page_call :
  Api.url (@Api.getCandidates Sample.platform None (Some (JS.Fin 100)))
  = "http://localhost:8000/api/candidates?top=100".
Proof. reflexivity. Qed.

Example getAlerts_page_call :
  Api.url (@Api.getAlerts Sample.platform (Some (JS.Fin 50)) None)
  = "http://localhost:8000/api/alerts?limit=50".
Proof. reflexivity. Qed.

Example getAlerts_with_strategy :
  Api.url (@Api.getAlerts Sample.platform None (Some "reseal_v1"))
  = "http://localhost:8000/api/alerts?limit=200&strategy_id=reseal_v1".
Proof. reflexivity. Qed.

(** ** The formatting helpers (C8) *)

Lemma string_length_app (a b : string) :
  String.length (a ++ b) = (String.length a + String.length b)%nat.
Proof. induction a as [|c a IH]; simpl; [reflexivity|now rewrite IH]. Qed.

Lemma zeros_length (k : nat) : String.length (JS.zeros k) = k.
Proof. induction k as [|k IH]; simpl; [reflexivity|now rewrite IH]. Qed.

Lemma starts_with_digit_app (a b : string) :
  JS.starts_with_digit a = true -> JS.starts_with_digit (a ++ b) = true.
Proof. destruct a; simpl; [discriminate|trivial]. Qed.

Lemma starts_with_digit_take (n : nat) (s : string) :
  (0 < n)%nat -> JS.starts_with_digit s = true ->
  JS.starts_with_digit (JS.take n s) = true.
Proof.
  intros Hn. destruct n as [|n]; [lia|]. destruct s; simpl; [discriminate|trivial].
Qed.

Lemma starts_with_digit_zeros (k : nat) :
  (0 < k)%nat -> JS.starts_with_digit (JS.zeros k) = true.
Proof. destruct k; [lia|reflexivity]. Qed.

Lemma digits_of_starts_with_digit (n : Z) :
  JS.starts_with_digit (JS.digits_of n) = true.
Proof.
  unfold JS.digits_of. destruct (N.to_uint (Z.to_N n)); reflexivity.
Qed.

Lemma format_digits_starts_with_digit (s : positive) (n : Z) :
  JS.starts_with_digit (JS.format_digits s n) = true.
Proof.
  unfold JS.format_digits.
  pose proof (digits_of_starts_with_digit (Zpos s)) as D.
  destruct (_ && _) eqn:C6; [now apply starts_with_digit_app|].
  destruct ((0 <? n)%Z && _) eqn:C7.
  { apply starts_with_digit_app, starts_with_digit_take; [|exact D].
    apply andb_true_iff in C7. destruct C7 as [C7 _]. apply Z.ltb_lt in C7. lia. }
  destruct ((-6 <? n)%Z && _); [reflexivity|].
  destruct (_ =? 1)%Z; [now apply starts_with_digit_app|].
  apply starts_with_digit_app, starts_with_digit_take; [lia|exact D].
Qed.

Section FormatFacts.
Context {P : JS.Platform}.

Lemma positive_toString_starts_with_digit (a : Q) :
  JS.starts_with_digit (JS.positive_toString a) = true.
Proof.
  unfold JS.positive_toString. destruct (JS.safe_integer a).
  - apply digits_of_starts_with_digit.
  - destruct (JS.shortest_digits a) as [s n].
    apply format_digits_starts_with_digit.
Qed.

(** Number::toString of a double that is not negative starts with a digit. *)
Lemma Number_toString_nonneg (a : Q) :
  JS.Qlt_bool a 0 = false ->
  JS.starts_with_digit (JS.Number_toString (JS.Fin a)) = true.
Proof.
  intros Ha. unfold JS.Number_toString. destruct (Qeq_bool a 0); [reflexivity|].
  rewrite Ha. apply positive_toString_starts_with_digit.
Qed.

(** A sign followed by text that starts with a digit is not the placeholder. *)
Lemma signed_digits_not_placeholder (neg : bool) (m : string) :
  JS.starts_with_digit m = true -> (if neg then "-" else "") ++ m <> "-".
Proof.
  destruct m as [|c m]; [discriminate|]. intros D. destruct neg; simpl.
  - discriminate.
  - intros E. injection E as -> _. discriminate.
Qed.

Lemma Qlt_bool_Qabs (q : Q) : JS.Qlt_bool (Qabs q) 0 = false.
Proof. apply Qlt_bool_false, Qabs_nonneg. Qed.

(** toFixed with fraction digits out of range throws, whatever the receiver. *)
Lemma toFixed_out_of_range (x d : JS.number) :
  JS.fraction_digits_ok d = false -> JS.toFixed x d = JS.Throw JS.RangeError.
Proof.
  unfold JS.fraction_digits_ok, JS.toFixed.
  destruct (JS.ToIntegerOrInfinity d) as [f| |]; try reflexivity.
  intros H. apply andb_false_iff in H.
  replace ((f <? 0)%Z || (100 <? f)%Z) with true; [reflexivity|].
  symmetry. apply orb_true_iff.
  destruct H as [H|H]; [left; apply Z.ltb_lt; apply Z.leb_gt in H; lia
                       |right; apply Z.ltb_lt; apply Z.leb_gt in H; lia].
Qed.

(** toFixed with fraction digits in range returns a string, and the string
    is not the placeholder. *)
Lemma toFixed_in_range (x d : JS.number) :
  JS.fraction_digits_ok d = true ->
  exists s : string, JS.toFixed x d = JS.Normal s /\ s <> "-".
Proof.
  unfold JS.fraction_digits_ok, JS.toFixed.
  destruct (JS.ToIntegerOrInfinity d) as [f| |]; try discriminate.
  intros H. apply andb_true_iff in H. destruct H as [H0 H100].
  apply Z.leb_le in H0. apply Z.leb_le in H100.
  replace ((f <? 0)%Z || (100 <? f)%Z) with false
    by (symmetry; apply orb_false_iff; split; apply Z.ltb_ge; lia).
  destruct x as [| | |q].
  - eexists. split; [reflexivity|discriminate].
  - eexists. split; [reflexivity|discriminate].
  - eexists. split; [reflexivity|discriminate].
  - destruct (Qle_bool (inject_Z (10 ^ 21)) (Qabs q)).
    { eexists. split; [reflexivity|].
      apply signed_digits_not_placeholder, Number_toString_nonneg, Qlt_bool_Qabs. }
    set (n := Qfloor (Qabs q * inject_Z (10 ^ f) + (1 # 2))).
    set (m := if (n =? 0)%Z then "0" else JS.digits_of n).
    assert (Dm : JS.starts_with_digit m = true).
    { unfold m. destruct (n =? 0)%Z; [reflexivity|apply digits_of_starts_with_digit]. }
    destruct (f =? 0)%Z.
    { eexists. split; [reflexivity|]. now apply signed_digits_not_placeholder. }
    eexists. split; [reflexivity|].
    apply signed_digits_not_placeholder, starts_with_digit_app.
    destruct (String.length m <=? Z.to_nat f)%nat eqn:L.
    + apply Nat.leb_le in L. apply starts_with_digit_take.
      * rewrite string_length_app, zeros_length. lia.
      * apply starts_with_digit_app, starts_with_digit_zeros. lia.
    + apply Nat.leb_gt in L. apply starts_with_digit_take; [lia|exact Dm].
Qed.

Lemma append_suffix_not_placeholder (s t : string) :
  t <> "" -> t <> "-" -> s ++ t <> "-".
Proof.
  intros H1 H2. destruct s as [|c s]; simpl; [exact H2|].
  intros E. injection E as _ E. destruct s; simpl in E; [contradiction|discriminate].
Qed.

(** C8, as the code has it. On a null or an undefined value each of
    formatNumber, formatPercent, formatAmount, formatTime and formatDateTime
    returns the placeholder '-' and does not throw, whatever the other
    argument. On a defined number formatAmount returns a string other than
    '-'; so do formatNumber and formatPercent when their [decimals]
    (2 when omitted) truncates to an integer from 0 to 100, the range toFixed
    accepts; outside that range they throw a RangeError. *)
Theorem format_helpers_total :
  (forall (decimals : option JS.number) (ts : JS.maybe string),
     Utils.formatNumber JS.Null decimals = JS.Normal "-"
     /\ Utils.formatNumber JS.Undefined decimals = JS.Normal "-"
     /\ Utils.formatPercent JS.Null decimals = JS.Normal "-"
     /\ Utils.formatPercent JS.Undefined decimals = JS.Normal "-"
     /\ Utils.formatAmount JS.Null = JS.Normal "-"
     /\ Utils.formatAmount JS.Undefined = JS.Normal "-"
     /\ Utils.formatTime JS.Null = JS.Normal "-"
     /\ Utils.formatTime JS.Undefined = JS.Normal "-"
     /\ Utils.formatDateTime JS.Null = JS.Normal "-"
     /\ Utils.formatDateTime JS.Undefined = JS.Normal "-"
     /\ (exists s, Utils.formatTime ts = JS.Normal s)
     /\ (exists s, Utils.formatDateTime ts = JS.Normal s))
  /\
  (forall (v : JS.number) (decimals : option JS.number),
     (JS.fraction_digits_ok (JS.default_arg decimals (JS.Fin 2)) = true ->
        (exists s, Utils.formatNumber (JS.Value v) decimals = JS.Normal s /\ s <> "-")
        /\ (exists s, Utils.formatPercent (JS.Value v) decimals = JS.Normal s /\ s <> "-"))
     /\ (JS.fraction_digits_ok (JS.default_arg decimals (JS.Fin 2)) = false ->
           Utils.formatNumber (JS.Value v) decimals = JS.Throw JS.RangeError
           /\ Utils.formatPercent (JS.Value v) decimals = JS.Throw JS.RangeError)
     /\ (exists s, Utils.formatNumber (JS.Value v) None = JS.Normal s /\ s <> "-")
     /\ (exists s, Utils.formatPercent (JS.Value v) None = JS.Normal s /\ s <> "-")
     /\ (exists s, Utils.formatAmount (JS.Value v) = JS.Normal s /\ s <> "-")).
Proof.
  split.
  - intros decimals ts. repeat (split; [reflexivity|]). split.
    + destruct ts as [| |s]; simpl; try (eexists; reflexivity).
      destruct (JS.truthy_string s); eexists; reflexivity.
    + destruct ts as [| |s]; simpl; try (eexists; reflexivity).
      destruct (JS.truthy_string s); eexists; reflexivity.
  - intros v decimals.
    assert (Pct : forall d, JS.fraction_digits_ok d = true ->
              exists s, match JS.toFixed (JS.fl_mul v (JS.Fin 100)) d with
                        | JS.Normal s => JS.Normal (s ++ "%")
                        | JS.Throw e => JS.Throw e
                        end = JS.Normal s /\ s <> "-").
    { intros d Hd. destruct (toFixed_in_range (JS.fl_mul v (JS.Fin 100)) d Hd) as [s [-> _]].
      eexists. split; [reflexivity|]. apply append_suffix_not_placeholder; discriminate. }
    split; [|split; [|split; [|split]]].
    + intros Hd. split.
      * apply toFixed_in_range, Hd.
      * apply Pct, Hd.
    + intros Hd. unfold Utils.formatNumber, Utils.formatPercent.
      rewrite !toFixed_out_of_range by exact Hd. split; reflexivity.
    + apply toFixed_in_range. reflexivity.
    + apply Pct. reflexivity.
    + unfold Utils.formatAmount.
      destruct (JS.num_ge v (JS.Fin 100000000)).
      { destruct (toFixed_in_range (JS.fl_div v (JS.Fin 100000000)) (JS.Fin 2) eq_refl)
          as [s [-> _]].
        eexists. split; [reflexivity|]. apply append_suffix_not_placeholder; discriminate. }
      destruct (JS.num_ge v (JS.Fin 10000)).
      { destruct (toFixed_in_range (JS.fl_div v (JS.Fin 10000)) (JS.Fin 0) eq_refl)
          as [s [-> _]].
        eexists. split; [reflexivity|]. apply append_suffix_not_placeholder; discriminate. }
      apply toFixed_in_range. reflexivity.
Qed.

End FormatFacts.

Lemma format_helpers_total_witness :
  @Utils.formatNumber Sample.platform (JS.Value (JS.Fin (314159 # 100000))) (Some (JS.Fin 2))
  = JS.Normal "3.14"
  /\ JS.fraction_digits_ok (JS.default_arg (Some (JS.Fin 2)) (JS.Fin 2)) = true
  /\ ((exists s, @Utils.formatNumber Sample.platform
                   (JS.Value (JS.Fin (314159 # 100000))) (Some (JS.Fin 2))
                 = JS.Normal s /\ s <> "-")
      /\ (exists s, @Utils.formatPercent Sample.platform
                      (JS.Value (JS.Fin (314159 # 100000))) (Some (JS.Fin 2))
                    = JS.Normal s /\ s <> "-")).
Proof.
  split; [reflexivity|]. split; [reflexivity|].
  apply (proj1 (proj2 (@format_helpers_total Sample.platform)
                  (JS.Fin (314159 # 100000)) (Some (JS.Fin 2)))).
  reflexivity.
Defined.

(** C8, as it is stated, fails for a defined number formatted with a
    [decimals] that toFixed rejects: formatNumber(1, 101) and
    formatPercent(1, 101) throw a RangeError and return no string. *)
Lemma format_decimals_out_of_range :
  @Utils.formatNumber Sample.platform (JS.Value (JS.Fin 1)) (Some (JS.Fin 101))
  = JS.Throw JS.RangeError
  /\ @Utils.formatPercent Sample.platform (JS.Value (JS.Fin 1)) (Some (JS.Fin 101))
     = JS.Throw JS.RangeError
  /\ @Utils.formatNumber Sample.platform (JS.Value (JS.Fin 1)) (Some (JS.Fin (-1)))
     = JS.Throw JS.RangeError.
Proof. repeat split. Qed.

(** The helpers on values the page shows. *)
Example formatNumber_score :
  @Utils.formatNumber Sample.platform (JS.Value (JS.Fin (824 # 10))) (Some (JS.Fin 0))
  = JS.Normal "82".
Proof. reflexivity. Qed.

Example formatPercent_bomb_rate :
  @Utils.formatPercent Sample.platform (JS.Value (JS.Fin (22 # 100))) None
  = JS.Normal "22.00%".
Proof. reflexivity. Qed.

Example formatAmount_scales :
  @Utils.formatAmount Sample.platform (JS.Value (JS.Fin 120000000)) = JS.Normal "1.20亿"
  /\ @Utils.formatAmount Sample.platform (JS.Value (JS.Fin 56000)) = JS.Normal "6万"
  /\ @Utils.formatAmount Sample.platform (JS.Value (JS.Fin 999)) = JS.Normal "999"
  /\ @Utils.formatAmount Sample.platform (JS.Value JS.NaN) = JS.Normal "NaN".
Proof. repeat split. Qed.

Example formatTime_empty :
  @Utils.formatTime Sample.platform (JS.Value "") = JS.Normal "-".
Proof. reflexivity. Qed.

(** ** The Decision Gate (C1, C2, C3) *)

Section GateFacts.
Variable base_action : Gate.CandidateScore -> list Gate.TriggerResult -> Gate.Action.

(** C1. Whatever the candidate's score and trigger results, a RED risk
    light makes the gate emit BLOCK, hence not ALLOW. *)
Theorem red_light_forces_block (cfg : Gate.GateConfig) (inp : Gate.GateInput) :
  Gate.risk_light inp = Gate.RED ->
  Gate.action (Gate.decision_gate base_action cfg inp) = Gate.BLOCK
  /\ Gate.action (Gate.decision_gate base_action cfg inp) <> Gate.ALLOW.
Proof.
  intros HR.
  assert (B : Gate.action (Gate.decision_gate base_action cfg inp) = Gate.BLOCK).
  { unfold Gate.decision_gate, Gate.block_forced. rewrite HR.
    destruct (Gate.candidate inp) as [[sc l]|]; reflexivity. }
  split; [exact B|]. rewrite B. discriminate.
Qed.

(** C2. When the data-quality block says the data is degraded, or its lag
    exceeds the configured maximum, or the block is missing altogether, the
    gate does not emit ALLOW. *)
Theorem degraded_data_forbids_allow (cfg : Gate.GateConfig) (inp : Gate.GateInput) :
  (forall dq : Gate.DataQuality,
     Gate.data_quality inp = Some dq ->
     Gate.is_degraded dq = true \/ Gate.max_data_lag_sec cfg < Gate.data_lag_sec dq ->
     Gate.action (Gate.decision_gate base_action cfg inp) <> Gate.ALLOW)
  /\ (Gate.data_quality inp = None ->
      Gate.action (Gate.decision_gate base_action cfg inp) <> Gate.ALLOW).
Proof.
  assert (W : Gate.degraded inp || Gate.lag_exceeded cfg inp = true ->
              Gate.action (Gate.decision_gate base_action cfg inp) <> Gate.ALLOW).
  { intros H. unfold Gate.decision_gate, Gate.watch_forced.
    destruct (Gate.candidate inp) as [[sc l]|]; [|discriminate].
    destruct (Gate.block_forced inp); [discriminate|].
    rewrite H. discriminate. }
  split.
  - intros dq Hdq [Hd|Hl]; apply W; unfold Gate.degraded, Gate.lag_exceeded;
      rewrite Hdq.
    + rewrite Hd. reflexivity.
    + apply orb_true_iff. right. apply negb_true_iff.
      destruct (Qle_bool (Gate.data_lag_sec dq) (Gate.max_data_lag_sec cfg)) eqn:E;
        [|reflexivity].
      qbool. exfalso. apply (Qlt_not_le _ _ Hl E).
  - intros Hn. apply W. unfold Gate.degraded. rewrite Hn. reflexivity.
Qed.


End GateFacts.






Lemma red_light_forces_block_witness :
  Gate.risk_light Sample.input_red = Gate.RED
  /\ (Gate.action (Gate.decision_gate Sample.eager Sample.config Sample.input_red)
      = Gate.BLOCK
      /\ Gate.action (Gate.decision_gate Sample.eager Sample.config Sample.input_red)
         <> Gate.ALLOW).
Proof.
  split; [reflexivity|].
  apply (red_light_forces_block Sample.eager Sample.config Sample.input_red).
  reflexivity.
Defined.

Lemma degraded_data_forbids_allow_witness :
  (Gate.is_degraded Sample.stale = true
   /\ Gate.action (Gate.decision_gate Sample.eager Sample.config Sample.input_stale)
      = Gate.WATCH
   /\ Gate.action (Gate.decision_gate Sample.eager Sample.config Sample.input_stale)
      <> Gate.ALLOW)
  /\ (Gate.is_degraded Sample.lagging = false
      /\ Gate.max_data_lag_sec Sample.config < Gate.data_lag_sec Sample.lagging
      /\ Gate.action (Gate.decision_gate Sample.eager Sample.config Sample.input_lagging)
         = Gate.WATCH
      /\ Gate.action (Gate.decision_gate Sample.eager Sample.config Sample.input_lagging)
         <> Gate.ALLOW).
Proof.
  split.
  - split; [reflexivity|]. split; [reflexivity|].
    apply (proj1 (degraded_data_forbids_allow Sample.eager Sample.config Sample.input_stale)
             Sample.stale).
    + reflexivity.
    + left. reflexivity.
  - split; [reflexivity|]. split; [reflexivity|]. split; [reflexivity|].
    apply (proj1 (degraded_data_forbids_allow Sample.eager Sample.config Sample.input_lagging)
             Sample.lagging).
    + reflexivity.
    + right. reflexivity.
Defined.



(** The stale sample input (degraded, 45 seconds old, one rule MISSING) is
    held at WATCH, with one warning for each forced rule that fired. *)
Example scenario_stale_decision :
  Gate.decision_gate Sample.eager Sample.config Sample.input_stale
  = {| Gate.action := Gate.WATCH;
       Gate.confidence :=
         Gate.compute_confidence Sample.config Gate.GREEN Sample.one_missing;
       Gate.warnings :=
         [ "data quality is degraded"; "data lag exceeds the maximum";
           "a required rule is MISSING" ] |}
  /\ Gate.compute_confidence Sample.config Gate.GREEN Sample.one_missing == 44 # 60.
Proof. split; reflexivity. Qed.

(* ================================================================== *)
(** * Further properties of the page, the client and the helpers *)
(* ================================================================== *)

(** ** FilterPanel and filterStocks *)

Lemma toggleExchange_In (c : Page.FilterConfig) (v e : string) :
  In e (Page.exchanges (Page.toggleExchange c v)) <->
  (In e (Page.exchanges c) /\ e <> v) \/ (e = v /\ ~ In v (Page.exchanges c)).
Proof.
  unfold Page.toggleExchange. cbn [Page.exchanges].
  destruct (existsb (fun x => String.eqb x v) (Page.exchanges c)) eqn:E.
  - apply existsb_exists in E. destruct E as [x [Hx Ex]].
    apply String.eqb_eq in Ex. subst x.
    rewrite filter_In, negb_true_iff, String.eqb_neq. tauto.
  - assert (Hn : ~ In v (Page.exchanges c)).
    { intros Hin. enough (true = false) by discriminate. rewrite <- E.
      symmetry. apply existsb_exists. exists v. split; [exact Hin|].
      apply String.eqb_refl. }
    rewrite in_app_iff. cbn [In]. split.
    + intros [H|[H|[]]].
      * left. split; [exact H|]. intros ->. contradiction.
      * right. split; [symmetry; exact H|exact Hn].
    + intros [[H _]|[-> _]]; [left; exact H|right; left; reflexivity].
Qed.

Lemma toggleExchange_NoDup (c : Page.FilterConfig) (v : string) :
  NoDup (Page.exchanges c) -> NoDup (Page.exchanges (Page.toggleExchange c v)).
Proof.
  intros Hnd. unfold Page.toggleExchange. cbn [Page.exchanges].
  destruct (existsb (fun x => String.eqb x v) (Page.exchanges c)) eqn:E.
  - apply NoDup_filter, Hnd.
  - apply NoDup_app; [exact Hnd|constructor; [intros []|constructor]|].
    intros x Hx [Hv|[]]. subst x.
    enough (true = false) by discriminate. rewrite <- E. symmetry.
    apply existsb_exists. exists v. split; [exact Hx|apply String.eqb_refl].
Qed.

(** X1. toggleExchange flips the membership of the toggled exchange and of
    no other: the value is selected afterwards exactly when it was not
    before, every other value keeps its status, a list without repetition
    stays without repetition, and showST and minAmount are untouched. *)
Theorem toggleExchange_flips (c : Page.FilterConfig) (v : string) :
  (In v (Page.exchanges (Page.toggleExchange c v)) <-> ~ In v (Page.exchanges c))
  /\ (forall e : string, e <> v ->
        (In e (Page.exchanges (Page.toggleExchange c v)) <-> In e (Page.exchanges c)))
  /\ (NoDup (Page.exchanges c) -> NoDup (Page.exchanges (Page.toggleExchange c v)))
  /\ Page.showST (Page.toggleExchange c v) = Page.showST c
  /\ Page.minAmount (Page.toggleExchange c v) = Page.minAmount c.
Proof.
  split; [|split; [|split; [|split; reflexivity]]].
  - rewrite toggleExchange_In. tauto.
  - intros e Hne. rewrite toggleExchange_In. tauto.
  - apply toggleExchange_NoDup.
Qed.

Lemma toggleExchange_flips_witness :
  Page.exchanges (Page.toggleExchange Page.initialFilterConfig "BJ")
  = ["SH"; "SZ"; "CYB"; "KCB"; "BJ"]
  /\ Page.exchanges (Page.toggleExchange Page.initialFilterConfig "SZ")
     = ["SH"; "CYB"; "KCB"]
  /\ (In "SH" (Page.exchanges (Page.toggleExchange Page.initialFilterConfig "SZ"))
      <-> In "SH" (Page.exchanges Page.initialFilterConfig))
  /\ NoDup (Page.exchanges (Page.toggleExchange Page.initialFilterConfig "SZ")).
Proof.
  split; [reflexivity|]. split; [reflexivity|]. split.
  - apply (proj1 (proj2 (toggleExchange_flips Page.initialFilterConfig "SZ")) "SH").
    discriminate.
  - apply (proj1 (proj2 (proj2 (toggleExchange_flips Page.initialFilterConfig "SZ")))).
    repeat constructor; simpl; intuition discriminate.
Defined.

(** X2. Whatever sequence of buttons of the filter panel is clicked, starting
    from the initial configuration: the selected exchanges are values of
    EXCHANGE_OPTIONS, none is listed twice, and minAmount is 0, 1, 5 or 10. *)
Theorem panel_reachable_invariant (c : Page.FilterConfig) :
  Page.panel_reachable c ->
  NoDup (Page.exchanges c)
  /\ incl (Page.exchanges c) (map Page.value Page.EXCHANGE_OPTIONS)
  /\ In (Page.minAmount c) [JS.Fin 0; JS.Fin 1; JS.Fin 5; JS.Fin 10].
Proof.
  induction 1 as [|c c' Hc [Hnd [Hincl Hmin]] Hin].
  - split; [|split].
    + repeat constructor; simpl; intuition discriminate.
    + intros e He. simpl in He. simpl. tauto.
    + left. reflexivity.
  - unfold Page.FilterPanel in Hin. rewrite !in_app_iff in Hin.
    destruct Hin as [Hin|[Hin|Hin]].
    + apply in_map_iff in Hin. destruct Hin as [opt [<- Hopt]].
      split; [|split].
      * apply toggleExchange_NoDup, Hnd.
      * intros e He. apply toggleExchange_In in He.
        destruct He as [[He _]|[-> _]]; [apply Hincl, He|].
        apply in_map, Hopt.
      * exact Hmin.
    + destruct Hin as [<-|[]]. split; [exact Hnd|split; [exact Hincl|exact Hmin]].
    + apply in_map_iff in Hin. destruct Hin as [v [<- Hv]].
      split; [exact Hnd|split; [exact Hincl|]].
      cbn [Page.minAmount]. simpl in Hv.
      destruct Hv as [<-|[<-|[<-|[<-|[]]]]]; simpl; tauto.
Qed.

Lemma panel_reachable_invariant_witness :
  Page.panel_reachable (Page.toggleExchange Page.initialFilterConfig "BJ")
  /\ (NoDup (Page.exchanges (Page.toggleExchange Page.initialFilterConfig "BJ"))
      /\ incl (Page.exchanges (Page.toggleExchange Page.initialFilterConfig "BJ"))
           (map Page.value Page.EXCHANGE_OPTIONS)
      /\ In (Page.minAmount (Page.toggleExchange Page.initialFilterConfig "BJ"))
           [JS.Fin 0; JS.Fin 1; JS.Fin 5; JS.Fin 10]).
Proof.
  assert (R : Page.panel_reachable (Page.toggleExchange Page.initialFilterConfig "BJ")).
  { apply (Page.reach_click Page.initialFilterConfig); [constructor|].
    do 4 right. left. reflexivity. }
  split; [exact R|].
  apply (panel_reachable_invariant _ R).
Defined.

Section FilterPanelFacts.
Context {P : JS.Platform}.

(** The selection reads the exchange list as a set. *)
Lemma selected_ext (c c' : Page.FilterConfig) (s : Page.Stock) :
  (forall e, In e (Page.exchanges c) -> In e (Page.exchanges c')) ->
  (Page.showST c = true -> Page.showST c' = true) ->
  Page.minAmount c' = Page.minAmount c \/ JS.num_gt (Page.minAmount c') (JS.Fin 0) = false ->
  Page.selected c s -> Page.selected c' s.
Proof.
  intros Hex Hst Hmin [[opt [H1 [H2 H3]]] [HST HA]]. split; [|split].
  - exists opt. split; [exact H1|]. split; [apply Hex, H2|exact H3].
  - intros Hf. apply HST. destruct (Page.showST c); [|reflexivity].
    rewrite Hst in Hf by reflexivity. discriminate.
  - intros Hpos. destruct Hmin as [Hmin|Hmin]; [|congruence].
    rewrite Hmin in *. apply HA, Hpos.
Qed.

Lemma keepStock_ext (c c' : Page.FilterConfig) (s : Page.Stock) :
  (forall e, In e (Page.exchanges c) <-> In e (Page.exchanges c')) ->
  Page.showST c = Page.showST c' ->
  Page.minAmount c = Page.minAmount c' ->
  Page.keepStock c s = Page.keepStock c' s.
Proof.
  intros Hex Hst Hmin.
  assert (H : Page.keepStock c s = true <-> Page.keepStock c' s = true).
  { rewrite !keepStock_spec. split; apply selected_ext;
      try (intros e; apply Hex); try (left; congruence); congruence. }
  destruct (Page.keepStock c s), (Page.keepStock c' s); try reflexivity.
  - symmetry. apply H. reflexivity.
  - apply H. reflexivity.
Qed.

(** X3. Clicking the same exchange button twice leaves the filtered lists as
    they were: filterStocks gives the same output under the configuration
    toggled twice as under the original one, although the exchange list
    itself may come back in another order. *)
Theorem toggleExchange_twice (c : Page.FilterConfig) (v : string)
  (stocks : option (list Page.Stock)) :
  Page.filterStocks (Page.toggleExchange (Page.toggleExchange c v) v) stocks
  = Page.filterStocks c stocks.
Proof.
  destruct stocks as [l|]; [|reflexivity]. cbn [Page.filterStocks].
  apply filter_ext. intros s. apply keepStock_ext; try reflexivity.
  intros e. rewrite !toggleExchange_In.
  destruct (string_dec e v) as [->|Hne];
    destruct (in_dec string_dec v (Page.exchanges c)); tauto.
Qed.

(** X4. Widening the filter never hides a stock: with more exchanges
    selected, ST stocks switched on (or left as they were), and the amount
    floor kept or removed, every stock filterStocks returned before is
    still returned. With no exchange selected nothing is returned. *)
Theorem filterStocks_widening (c c' : Page.FilterConfig) (stocks : list Page.Stock) :
  (incl (Page.exchanges c) (Page.exchanges c') ->
   (Page.showST c = true -> Page.showST c' = true) ->
   Page.minAmount c' = Page.minAmount c
   \/ JS.num_gt (Page.minAmount c') (JS.Fin 0) = false ->
   incl (Page.filterStocks c (Some stocks)) (Page.filterStocks c' (Some stocks)))
  /\ (Page.exchanges c = [] -> Page.filterStocks c (Some stocks) = []).
Proof.
  split.
  - intros Hex Hst Hmin s. unfold Page.filterStocks. rewrite !filter_In.
    rewrite !keepStock_spec. intros [Hin Hs]. split; [exact Hin|].
    revert Hs. apply selected_ext; assumption.
  - intros He. unfold Page.filterStocks.
    induction stocks as [|s l IH]; [reflexivity|]. cbn [filter].
    unfold Page.keepStock at 1. rewrite He. cbn [Page.matchExchange negb].
    exact IH.
Qed.

End FilterPanelFacts.

Lemma filterStocks_widening_witness :
  incl (Page.exchanges Page.initialFilterConfig)
       (Page.exchanges (Page.toggleExchange Page.initialFilterConfig "BJ"))
  /\ @Page.filterStocks Sample.platform
       (Page.toggleExchange Page.initialFilterConfig "BJ") (Some Sample.stocks)
     = [ Sample.stock "600000" "浦发银行" 250000000;
         Sample.stock "830001" "北交个股" 300000000;
         Sample.stock "300750" "宁德时代" 50000000;
         Sample.stock "600000" "浦发银行" 250000000 ]
  /\ incl (@Page.filterStocks Sample.platform Page.initialFilterConfig (Some Sample.stocks))
          (@Page.filterStocks Sample.platform
             (Page.toggleExchange Page.initialFilterConfig "BJ") (Some Sample.stocks)).
Proof.
  assert (I : incl (Page.exchanges Page.initialFilterConfig)
                (Page.exchanges (Page.toggleExchange Page.initialFilterConfig "BJ"))).
  { intros e He. apply in_or_app. left. exact He. }
  split; [exact I|]. split; [reflexivity|].
  apply (proj1 (@filterStocks_widening Sample.platform Page.initialFilterConfig
                  (Page.toggleExchange Page.initialFilterConfig "BJ") Sample.stocks)).
  - exact I.
  - intros H. exact H.
  - left. reflexivity.
Defined.

(** ** ExchangeTag *)

Lemma startsWith_cons (s : string) (c : ascii) (p : string) :
  JS.startsWith s (String c p) = true ->
  exists r : string, s = String c r /\ JS.startsWith r p = true.
Proof.
  unfold JS.startsWith. destruct s as [|d r]; simpl; [discriminate|].
  destruct (ascii_dec c d) as [->|]; [|discriminate].
  intros H. exists r. split; [reflexivity|exact H].
Qed.

Section ExchangeTagFacts.
Context {P : JS.Platform}.

(** X5. Every stock filterStocks returns carries a symbol for which
    ExchangeTag renders a tag, and the tag is that of a selected exchange
    (沪 for SH, 深 for SZ, 创 for CYB, 科 for KCB, 北 for BJ). The converse
    fails for the Beijing board: a symbol starting with 4 is tagged 北, yet
    filterStocks returns no such stock under any configuration. *)
Theorem ExchangeTag_of_filtered (cfg : Page.FilterConfig) (stocks : list Page.Stock) :
  (forall s : Page.Stock,
     In s (Page.filterStocks cfg (Some stocks)) ->
     exists (sym : string) (opt : Page.ExchangeOption),
       Page.symbol s = Some sym
       /\ In opt Page.EXCHANGE_OPTIONS
       /\ In (Page.value opt) (Page.exchanges cfg)
       /\ option_map Page.tag_label (Page.ExchangeTag sym)
          = Some (Page.option_tag_label (Page.value opt)))
  /\ (forall (s : Page.Stock) (sym : string),
        Page.symbol s = Some sym ->
        JS.startsWith sym "4" = true ->
        option_map Page.tag_label (Page.ExchangeTag sym) = Some "北"
        /\ ~ In s (Page.filterStocks cfg (Some stocks))).
Proof.
  split.
  - intros s Hin. unfold Page.filterStocks in Hin. apply filter_In in Hin.
    destruct Hin as [_ Hk]. apply keepStock_spec in Hk.
    destruct Hk as [[opt [Hopt [Hsel Hpre]]] _].
    apply startsWith_spec in Hpre.
    assert (Hsym : exists sym, Page.symbol s = Some sym
                               /\ JS.or_string (Page.symbol s) "" = sym).
    { destruct (Page.symbol s) as [sym|] eqn:E.
      - exists sym. split; [reflexivity|]. simpl.
        destruct (JS.truthy_string sym) eqn:T; [reflexivity|].
        destruct sym; [reflexivity|discriminate].
      - exfalso. simpl in Hpre. simpl in Hopt.
        destruct Hopt as [<-|[<-|[<-|[<-|[<-|[]]]]]]; discriminate. }
    destruct Hsym as [sym [Es Eo]]. rewrite Eo in Hpre.
    exists sym, opt. split; [exact Es|]. split; [exact Hopt|]. split; [exact Hsel|].
    simpl in Hopt.
    destruct Hopt as [<-|[<-|[<-|[<-|[<-|[]]]]]]; cbn [Page.prefix Page.value] in *;
      apply startsWith_cons in Hpre; destruct Hpre as [r [-> Hpre]];
      try (apply startsWith_cons in Hpre; destruct Hpre as [r' [-> _]];
           destruct r'; reflexivity);
      destruct r; reflexivity.
  - intros s sym Es H4. apply startsWith_cons in H4. destruct H4 as [r [-> _]].
    split; [destruct r; reflexivity|].
    intros Hin. unfold Page.filterStocks in Hin. apply filter_In in Hin.
    destruct Hin as [_ Hk]. apply keepStock_spec in Hk.
    destruct Hk as [[opt [Hopt [_ Hpre]]] _]. rewrite Es in Hpre.
    apply startsWith_spec in Hpre. simpl in Hopt.
    destruct Hopt as [<-|[<-|[<-|[<-|[<-|[]]]]]]; discriminate.
Qed.

End ExchangeTagFacts.

Lemma ExchangeTag_of_filtered_witness :
  In (Sample.stock "300750" "宁德时代" 50000000)
     (@Page.filterStocks Sample.platform Sample.filter_default (Some Sample.stocks))
  /\ option_map Page.tag_label (Page.ExchangeTag "300750") = Some "创"
  /\ (exists (sym : string) (opt : Page.ExchangeOption),
        Page.symbol (Sample.stock "300750" "宁德时代" 50000000) = Some sym
        /\ In opt Page.EXCHANGE_OPTIONS
        /\ In (Page.value opt) (Page.exchanges Sample.filter_default)
        /\ option_map Page.tag_label (Page.ExchangeTag sym)
           = Some (Page.option_tag_label (Page.value opt)))
  /\ (option_map Page.tag_label (Page.ExchangeTag "430047") = Some "北"
      /\ ~ In (Sample.stock "430047" "诺思兰德" 300000000)
              (@Page.filterStocks Sample.platform
                 (Page.toggleExchange Page.initialFilterConfig "BJ")
                 (Some [Sample.stock "430047" "诺思兰德" 300000000]))).
Proof.
  assert (I : In (Sample.stock "300750" "宁德时代" 50000000)
                (@Page.filterStocks Sample.platform Sample.filter_default
                   (Some Sample.stocks))).
  { right. left. reflexivity. }
  split; [exact I|]. split; [reflexivity|]. split.
  - apply (proj1 (@ExchangeTag_of_filtered Sample.platform Sample.filter_default
                    Sample.stocks) _ I).
  - apply (proj2 (@ExchangeTag_of_filtered Sample.platform
                    (Page.toggleExchange Page.initialFilterConfig "BJ")
                    [Sample.stock "430047" "诺思兰德" 300000000])
             (Sample.stock "430047" "诺思兰德" 300000000) "430047");
      reflexivity.
Defined.

(** ** StockListCard *)

(** X6. A collapsed stock card shows the first ten stocks of its list, in
    their order, and an expanded one shows them all; whenever a stock of
    the list is not shown, the card offers its "show all" button. *)
Theorem displayStocks_complete (expanded : bool) (stocks : list Page.Stock) :
  Page.displayStocks expanded stocks
  = firstn (List.length (Page.displayStocks expanded stocks)) stocks
  /\ List.length (Page.displayStocks expanded stocks)
     = (if expanded then List.length stocks else Nat.min 10 (List.length stocks))
  /\ (Page.showExpandButton expanded stocks = false ->
      Page.displayStocks expanded stocks = stocks)
  /\ (Page.showExpandButton expanded stocks = true ->
      List.length (Page.displayStocks expanded stocks) = 10%nat
      /\ (10 < List.length stocks)%nat).
Proof.
  unfold Page.displayStocks, Page.showExpandButton.
  destruct expanded; cbn [negb andb].
  - split; [symmetry; apply firstn_all|]. split; [reflexivity|].
    split; [reflexivity|discriminate].
  - split; [|split; [apply length_firstn|split]].
    + rewrite length_firstn.
      destruct (Nat.min_spec 10 (List.length stocks)) as [[_ ->]|[H ->]];
        [reflexivity|].
      rewrite firstn_all. apply firstn_all2. exact H.
    + intros H. apply Nat.ltb_ge in H. apply firstn_all2. exact H.
    + intros H. apply Nat.ltb_lt in H. split; [|exact H].
      rewrite length_firstn. lia.
Qed.

Lemma displayStocks_complete_witness :
  Page.showExpandButton false Sample.stocks = false
  /\ Page.displayStocks false Sample.stocks = Sample.stocks
  /\ Page.showExpandButton false (Sample.stocks ++ Sample.stocks ++ Sample.stocks) = true
  /\ (List.length (Page.displayStocks false
                     (Sample.stocks ++ Sample.stocks ++ Sample.stocks)) = 10%nat
      /\ (10 < List.length (Sample.stocks ++ Sample.stocks ++ Sample.stocks))%nat).
Proof.
  split; [reflexivity|]. split.
  - apply (proj1 (proj2 (proj2 (displayStocks_complete false Sample.stocks)))).
    reflexivity.
  - split; [reflexivity|].
    apply (proj2 (proj2 (proj2 (displayStocks_complete false
                                  (Sample.stocks ++ Sample.stocks ++ Sample.stocks))))).
    reflexivity.
Defined.

(** ** The sorted stock list *)

Lemma insert_stable_perm {A : Type} (c : A -> A -> JS.number) (x : A) (l : list A) :
  Permutation (JS.insert_stable c x l) (x :: l).
Proof.
  induction l as [|y r IH]; cbn [JS.insert_stable].
  - apply Permutation_refl.
  - destruct (JS.num_gt (c x y) (JS.Fin 0)).
    + eapply perm_trans; [apply perm_skip, IH | apply perm_swap].
    + apply Permutation_refl.
Qed.

Lemma Array_sort_perm {A : Type} (c : A -> A -> JS.number) (l : list A) :
  Permutation (JS.Array_sort c l) l.
Proof.
  induction l as [|x r IH]; cbn [JS.Array_sort fold_right].
  - apply perm_nil.
  - eapply perm_trans; [apply insert_stable_perm | apply perm_skip, IH].
Qed.

(** Inserting into a list sorted by a total, transitive order [R] keeps it
    sorted, when the comparator says "after" exactly where [R] fails. *)
Lemma insert_stable_sorted {A : Type} (c : A -> A -> JS.number) (R : A -> A -> bool)
  (x : A) (l : list A) :
  (forall a b, R a b = false -> R b a = true) ->
  (forall a b d, R a b = true -> R b d = true -> R a d = true) ->
  (forall y, In y l -> JS.num_gt (c x y) (JS.Fin 0) = negb (R x y)) ->
  StronglySorted (fun a b => R a b = true) l ->
  StronglySorted (fun a b => R a b = true) (JS.insert_stable c x l).
Proof.
  intros Htot Htrans. induction l as [|y r IH]; intros Hc Hs; cbn [JS.insert_stable].
  - constructor; constructor.
  - inversion Hs as [|? ? Hr Hy]; subst.
    rewrite (Hc y (or_introl eq_refl)).
    destruct (R x y) eqn:E; cbn [negb].
    + constructor; [assumption|].
      constructor; [assumption|].
      rewrite Forall_forall in *. intros z Hz. eapply Htrans; eauto.
    + constructor.
      * apply IH; [|assumption]. intros z Hz. apply Hc. right. assumption.
      * rewrite Forall_forall in *. intros z Hz.
        apply (Permutation_in _ (insert_stable_perm c x r)) in Hz.
        destruct Hz as [<-|Hz]; [apply Htot; assumption | apply Hy; assumption].
Qed.

Lemma Array_sort_sorted {A : Type} (c : A -> A -> JS.number) (R : A -> A -> bool)
  (l : list A) :
  (forall a b, R a b = false -> R b a = true) ->
  (forall a b d, R a b = true -> R b d = true -> R a d = true) ->
  (forall x y, In x l -> In y l -> JS.num_gt (c x y) (JS.Fin 0) = negb (R x y)) ->
  StronglySorted (fun a b => R a b = true) (JS.Array_sort c l).
Proof.
  intros Htot Htrans. induction l as [|x r IH]; intros Hc; cbn [JS.Array_sort fold_right].
  - constructor.
  - apply insert_stable_sorted; try assumption.
    + intros y Hy. apply Hc; [left; reflexivity|].
      right. apply (Permutation_in _ (Array_sort_perm c r)). assumption.
    + apply IH. intros a b Ha Hb. apply Hc; right; assumption.
Qed.

Lemma num_le_total (a b : JS.number) :
  a <> JS.NaN -> b <> JS.NaN -> JS.num_le a b = false -> JS.num_le b a = true.
Proof.
  destruct a, b; simpl; try congruence; try reflexivity.
  intros _ _ E. qbool. apply Qle_bool_iff, Qlt_le_weak. assumption.
Qed.

Lemma num_le_trans (a b d : JS.number) :
  JS.num_le a b = true -> JS.num_le b d = true -> JS.num_le a d = true.
Proof.
  destruct a, b, d; simpl; try congruence; try reflexivity.
  rewrite !Qle_bool_iff. apply Qle_trans.
Qed.

Section SortFacts.
Context {P : JS.Platform}.
Variable localeCompare : string -> string -> JS.number.

(** Where the subtraction keeps the sign of the difference, [a - b > 0] is
    [a > b]. *)
Lemma fl_sub_positive (a b : JS.number) :
  a <> JS.NaN -> b <> JS.NaN -> Page.difference_sign_kept a b ->
  JS.num_gt (JS.fl_sub a b) (JS.Fin 0) = JS.num_gt a b.
Proof.
  unfold JS.num_gt.
  destruct a as [| | |p], b as [| | |q]; simpl; try congruence; try reflexivity.
  intros _ _ [Hpos Hneg]. unfold JS.to_double.
  destruct (Qle_bool JS.overflow_bound (Qabs (p - q))) eqn:Eo.
  - qbool.
    assert (Hb : 0 < JS.overflow_bound) by (unfold JS.overflow_bound, Qlt; simpl; lia).
    destruct (JS.Qlt_bool (p - q) 0) eqn:En; simpl; symmetry.
    + apply Qlt_bool_true in En. apply Qlt_bool_false. lra.
    + apply Qlt_bool_false in En. apply Qlt_bool_true.
      rewrite Qabs_pos in Eo by assumption. lra.
  - simpl. destruct (JS.Qlt_bool q p) eqn:E.
    + apply Qlt_bool_true in E. apply Qlt_bool_true. auto.
    + apply Qlt_bool_false in E. apply Qlt_bool_false. auto.
Qed.

Lemma numeric_field_not_NaN (k : Page.SortKey) (a : Page.Stock) :
  Page.numeric_field k a <> JS.NaN.
Proof. apply or_number_not_NaN. discriminate. Qed.

(** X7. Sorting by a numeric key (change, amount, price) gives a
    rearrangement of the given stocks in which every stock stands before all
    stocks of smaller key when descending, of greater key when ascending; an
    absent key counts as 0. The subtraction of the comparator has to keep the
    sign of the difference of the keys it is given. *)
Theorem sortedStocks_numeric (sortKey : Page.SortKey) (sortDesc : bool)
  (stocks : list Page.Stock) :
  Page.numeric_key sortKey = true ->
  (forall a b, In a stocks -> In b stocks ->
     Page.difference_sign_kept (Page.numeric_field sortKey a) (Page.numeric_field sortKey b)) ->
  Permutation (Page.sortedStocks localeCompare sortKey sortDesc stocks) stocks /\
  StronglySorted
    (fun a b =>
       Page.in_order sortDesc (Page.numeric_field sortKey a) (Page.numeric_field sortKey b)
       = true)
    (Page.sortedStocks localeCompare sortKey sortDesc stocks).
Proof.
  intros Hk Hsign. split; [apply Array_sort_perm|].
  unfold Page.sortedStocks.
  apply (Array_sort_sorted _
           (fun a b => Page.in_order sortDesc (Page.numeric_field sortKey a)
                         (Page.numeric_field sortKey b))).
  - intros a b. destruct sortDesc; simpl; unfold JS.num_ge;
      apply num_le_total; apply numeric_field_not_NaN.
  - intros a b d. destruct sortDesc; simpl; unfold JS.num_ge; intros H1 H2;
      eapply num_le_trans; eassumption.
  - intros x y Hx Hy.
    assert (Hc : Page.compareStocks localeCompare sortKey sortDesc x y =
                 if sortDesc
                 then JS.fl_sub (Page.numeric_field sortKey y) (Page.numeric_field sortKey x)
                 else JS.fl_sub (Page.numeric_field sortKey x) (Page.numeric_field sortKey y))
      by (destruct sortKey; try discriminate Hk; reflexivity).
    rewrite Hc. destruct sortDesc; cbn [Page.in_order].
    + rewrite fl_sub_positive by (try apply numeric_field_not_NaN; apply Hsign; assumption).
      rewrite <- (num_lt_negb_ge _ _ (numeric_field_not_NaN _ _) (numeric_field_not_NaN _ _)).
      rewrite negb_involutive. reflexivity.
    + rewrite fl_sub_positive by (try apply numeric_field_not_NaN; apply Hsign; assumption).
      change (JS.num_le (Page.numeric_field sortKey x) (Page.numeric_field sortKey y))
        with (JS.num_ge (Page.numeric_field sortKey y) (Page.numeric_field sortKey x)).
      rewrite <- (num_lt_negb_ge _ _ (numeric_field_not_NaN _ _) (numeric_field_not_NaN _ _)).
      rewrite negb_involutive. reflexivity.
Qed.

(** X8. The array displayStocks that the sorted card maps to its rows
    never invents or loses a stock: collapsed it holds at most ten stocks,
    all of them stocks of the card; expanded, or with at most ten stocks, it
    is a rearrangement of the whole list; this for every sort key, direction
    and collation. When the symbols of the card's stocks are pairwise
    distinct, the keys of the rows are pairwise distinct too. (With a symbol
    that occurs twice two rows share a key, and how they are then drawn is
    not part of this statement.) *)
Theorem displaySortedStocks_shown (sortKey : Page.SortKey) (sortDesc expanded : bool)
  (stocks : list Page.Stock) :
  (List.length (Page.displaySortedStocks localeCompare sortKey sortDesc expanded stocks)
   <= if expanded then List.length stocks else 10)%nat /\
  incl (Page.displaySortedStocks localeCompare sortKey sortDesc expanded stocks) stocks /\
  (expanded = true \/ (List.length stocks <= 10)%nat ->
   Permutation (Page.displaySortedStocks localeCompare sortKey sortDesc expanded stocks) stocks)
  /\ (NoDup (map Page.symbol stocks) ->
      NoDup (Page.row_keys
               (Page.displaySortedStocks localeCompare sortKey sortDesc expanded stocks))).
Proof.
  unfold Page.displaySortedStocks, Page.sortedStocks, Page.row_keys.
  pose proof (Array_sort_perm (Page.compareStocks localeCompare sortKey sortDesc) stocks) as Hp.
  repeat match goal with |- _ /\ _ => split end.
  - destruct expanded.
    + rewrite (Permutation_length Hp). apply le_n.
    + apply firstn_le_length.
  - intros s Hs. apply (Permutation_in _ Hp).
    destruct expanded; [assumption|].
    rewrite <- (firstn_skipn 10). apply in_or_app. left. exact Hs.
  - intros [->|Hlen]; [assumption|].
    destruct expanded; [assumption|].
    rewrite firstn_all2; [assumption|].
    rewrite (Permutation_length Hp). assumption.
  - intros Hnd.
    assert (Hs : NoDup (map Page.symbol
                          (JS.Array_sort (Page.compareStocks localeCompare sortKey sortDesc)
                             stocks))).
    { apply (Permutation_NoDup (l := map Page.symbol stocks)); [|exact Hnd].
      apply Permutation_map, Permutation_sym, Hp. }
    destruct expanded; [exact Hs|].
    rewrite <- (firstn_skipn 10 (JS.Array_sort _ stocks)), map_app in Hs.
    apply NoDup_app_remove_r in Hs. exact Hs.
Qed.

End SortFacts.

(** X9. After a click on a sort button that button's key is the active one;
    a click on the active key only reverses the direction, so that two
    clicks on it restore the state; a click on another key brings the
    direction listed for it in SORT_OPTIONS. *)
Theorem handleSortChange_clicks (st : Page.SortKey * bool) (key : Page.SortKey) :
  fst (Page.handleSortChange st key) = key /\
  Page.handleSortChange (Page.handleSortChange st key) key
  = (key, negb (snd (Page.handleSortChange st key))) /\
  (fst st = key ->
   Page.handleSortChange (Page.handleSortChange st key) key = st) /\
  (fst st <> key ->
   exists opt, In opt Page.SORT_OPTIONS /\ Page.sort_value opt = key /\
               snd (Page.handleSortChange st key) = Page.desc opt).
Proof.
  destruct st as [k d].
  repeat match goal with |- _ /\ _ => split end.
  - destruct k, key; reflexivity.
  - destruct k, key; reflexivity.
  - simpl. intros <-. destruct k, d; reflexivity.
  - simpl. intros Hne.
    destruct k, key; try congruence;
      (eexists; split; [|split; [|reflexivity]];
       [unfold Page.SORT_OPTIONS; simpl; eauto 10 | reflexivity]).
Qed.

Lemma sortedStocks_numeric_witness :
  Page.numeric_key Page.K_amount = true /\
  @Page.sortedStocks Sample.platform (fun _ _ => JS.Fin 0) Page.K_amount true Sample.stocks
  = [ Sample.stock "000002" "*ST万科" 900000000;
      Sample.stock "830001" "北交个股" 300000000;
      Sample.stock "600000" "浦发银行" 250000000;
      Sample.stock "600000" "浦发银行" 250000000;
      Sample.stock "300750" "宁德时代" 50000000 ] /\
  Permutation
    (@Page.sortedStocks Sample.platform (fun _ _ => JS.Fin 0) Page.K_amount true Sample.stocks)
    Sample.stocks /\
  StronglySorted
    (fun a b =>
       Page.in_order true (Page.numeric_field Page.K_amount a)
         (Page.numeric_field Page.K_amount b) = true)
    (@Page.sortedStocks Sample.platform (fun _ _ => JS.Fin 0) Page.K_amount true Sample.stocks).
Proof.
  split; [reflexivity|]. split; [reflexivity|].
  apply (@sortedStocks_numeric Sample.platform (fun _ _ => JS.Fin 0) Page.K_amount true
           Sample.stocks).
  - reflexivity.
  - intros a b _ _. unfold Page.difference_sign_kept.
    destruct (Page.numeric_field Page.K_amount a), (Page.numeric_field Page.K_amount b);
      try exact I.
    simpl. split; intros H; lra.
Defined.

Lemma displaySortedStocks_shown_witness :
  (List.length Sample.stocks <= 10)%nat
  /\ Permutation
       (@Page.displaySortedStocks Sample.platform (fun _ _ => JS.Fin 0) Page.K_amount true
          false Sample.stocks)
       Sample.stocks
  /\ Page.row_keys
       (@Page.displaySortedStocks Sample.platform (fun _ _ => JS.Fin 0) Page.K_amount true
          false (firstn 4 Sample.stocks))
     = [Some "000002"; Some "830001"; Some "600000"; Some "300750"]
  /\ NoDup
       (Page.row_keys
          (@Page.displaySortedStocks Sample.platform (fun _ _ => JS.Fin 0) Page.K_amount true
             false (firstn 4 Sample.stocks))).
Proof.
  assert (L : (List.length Sample.stocks <= 10)%nat) by (simpl; lia).
  split; [exact L|]. split; [|split; [reflexivity|]].
  - apply (proj1 (proj2 (proj2 (@displaySortedStocks_shown Sample.platform
                                  (fun _ _ => JS.Fin 0) Page.K_amount true false
                                  Sample.stocks)))).
    right. exact L.
  - apply (proj2 (proj2 (proj2 (@displaySortedStocks_shown Sample.platform
                                  (fun _ _ => JS.Fin 0) Page.K_amount true false
                                  (firstn 4 Sample.stocks))))).
    repeat constructor; cbn; intuition discriminate.
Defined.

Lemma handleSortChange_clicks_witness :
  Page.handleSortChange (Page.handleSortChange (Page.K_amount, true) Page.K_amount)
    Page.K_amount = (Page.K_amount, true) /\
  Page.handleSortChange (Page.K_amount, true) Page.K_symbol = (Page.K_symbol, false).
Proof.
  split.
  - apply (proj1 (proj2 (proj2
             (handleSortChange_clicks (Page.K_amount, true) Page.K_amount)))).
    reflexivity.
  - reflexivity.
Defined.

(** ** What the server reads back from the request URLs *)

Lemma urldecode_urlencode_byte (c : ascii) (rest : string) :
  Api.urldecode (Api.urlencode_byte c ++ rest) = String c (Api.urldecode rest).
Proof.
  destruct c as [[] [] [] [] [] [] [] []]; reflexivity.
Qed.

(** Decoding undoes the serializer's encoding, whatever the bytes. *)
Lemma urldecode_urlencode (s : string) : Api.urldecode (Api.urlencode s) = s.
Proof.
  induction s as [|c s IH]; [reflexivity|].
  cbn [Api.urlencode]. rewrite urldecode_urlencode_byte, IH. reflexivity.
Qed.

Lemma decode_encode_fields (p : Api.URLSearchParams) :
  map Api.decode_field (map Api.encode_field p) = p.
Proof.
  induction p as [|[k v] p IH]; [reflexivity|].
  cbn [map]. rewrite IH. unfold Api.decode_field, Api.encode_field. cbn [fst snd].
  rewrite !urldecode_urlencode. reflexivity.
Qed.








Lemma before_first_clean (sep : ascii) (s : string) :
  Api.occurs sep s = false -> Api.before_first sep s = s.
Proof.
  induction s as [|c s IH]; simpl; [reflexivity|].
  intros H. apply orb_false_iff in H. destruct H as [-> Hs].
  rewrite IH by assumption. reflexivity.
Qed.



(** The serializer writes no [#]. *)
Lemma urlencode_no_hash (s : string) : Api.occurs "#" (Api.urlencode s) = false.
Proof.
  induction s as [|c s IH]; [reflexivity|].
  cbn [Api.urlencode]. rewrite occurs_app, IH, orb_false_r.
  destruct c as [[] [] [] [] [] [] [] []]; reflexivity.
Qed.

Lemma serialize_no_hash (p : Api.URLSearchParams) :
  Api.occurs "#" (Api.serialize p) = false.
Proof.
  assert (F : forall kv, Api.occurs "#" (Api.serialize_field kv) = false).
  { intros kv. unfold Api.serialize_field.
    rewrite !occurs_app, !urlencode_no_hash. reflexivity. }
  induction p as [|kv rest IH]; [reflexivity|].
  destruct rest as [|kv' rest]; [apply F|].
  change (Api.serialize (kv :: kv' :: rest))
    with (Api.serialize_field kv ++ "&" ++ Api.serialize (kv' :: rest)).
  rewrite !occurs_app, F, IH. reflexivity.
Qed.

(** A URL without [#] is sent whole. *)
Lemma sent_part_whole (url : string) :
  Api.occurs "#" url = false -> Api.sent_part url = url.
Proof. apply before_first_clean. Qed.





Section QueryFacts.
Context {P : JS.Platform}.

(** X10. The parameters the server decodes from the requests of
    getCandidates, getAlerts and switchTradingMode are exactly the ones the
    function appended, in their order and whatever bytes a strategy id, a
    mode or a reason contains, provided the configured base URL has neither
    [?] nor [#]. *)
Theorem query_round_trip
  (strategyId : option string) (top limit : option JS.number)
  (mode : string) (reason : option string) :
  Api.occurs "?" Api.API_BASE = false ->
  Api.occurs "#" Api.API_BASE = false ->
  Api.query_params (Api.url (Api.getCandidates strategyId top))
  = Api.getCandidates_params strategyId top
  /\ Api.query_params (Api.url (Api.getAlerts limit strategyId))
     = Api.getAlerts_params limit strategyId
  /\ Api.query_params (Api.url (Api.switchTradingMode mode reason))
     = Api.switchTradingMode_params mode reason.
Proof.
  intros Hb Hh. unfold Api.query_params.
  unfold Api.getCandidates, Api.getAlerts, Api.switchTradingMode, Api.fetchAPI.
  cbn [Api.url].
  assert (Hc : Api.occurs "#" (Api.API_BASE ++ Api.getCandidates_endpoint strategyId top)
               = false).
  { unfold Api.getCandidates_endpoint. rewrite !occurs_app, Hh, serialize_no_hash.
    reflexivity. }
  assert (Ha : Api.occurs "#" (Api.API_BASE ++ Api.getAlerts_endpoint limit strategyId)
               = false).
  { unfold Api.getAlerts_endpoint. rewrite !occurs_app, Hh, serialize_no_hash.
    reflexivity. }
  assert (Hm : Api.occurs "#" (Api.API_BASE ++ Api.switchTradingMode_endpoint mode reason)
               = false).
  { unfold Api.switchTradingMode_endpoint. rewrite !occurs_app, Hh, serialize_no_hash.
    reflexivity. }
  rewrite (sent_part_whole _ Hc), (sent_part_whole _ Ha), (sent_part_whole _ Hm).
  rewrite !(query_fields_base _ _ Hb).
  repeat split.
  - rewrite getCandidates_fields. apply decode_encode_fields.
  - rewrite getAlerts_fields. apply decode_encode_fields.
  - assert (E : Api.query_fields (Api.switchTradingMode_endpoint mode reason)
                = map Api.encode_field (Api.switchTradingMode_params mode reason))
      by (apply (query_fields_serialize "/api/trading/mode"); reflexivity).
    rewrite E. apply decode_encode_fields.
Qed.


End QueryFacts.

Lemma query_round_trip_witness :
  Api.occurs "?" (@Api.API_BASE Sample.platform) = false
  /\ Api.occurs "#" (@Api.API_BASE Sample.platform) = false
  /\ Api.url (@Api.switchTradingMode Sample.platform "paper" (Some "end of day & review #1"))
     = "http://localhost:8000/api/trading/mode?mode=paper&reason=end+of+day+%26+review+%231"
  /\ Api.query_params
       (Api.url (@Api.switchTradingMode Sample.platform "paper"
                   (Some "end of day & review #1")))
     = [("mode", "paper"); ("reason", "end of day & review #1")].
Proof.
  split; [reflexivity|]. split; [reflexivity|]. split; [reflexivity|].
  apply (proj2 (proj2 (@query_round_trip Sample.platform None None None "paper"
                         (Some "end of day & review #1") eq_refl eq_refl))).
Defined.


(** ** The countdown between two reloads *)

Section CountdownFacts.
Context {P : JS.Platform}.

Lemma countdown_run_down (N : Z) (r : JS.number) (m : nat) :
  (N <= 2 ^ 53)%Z -> Page.integers_exact N ->
  forall p : Q, p == inject_Z (Z.of_nat (S m)) -> (Z.of_nat (S m) <= N)%Z ->
  Page.countdown_run r (S m) (JS.Fin p) = (r, (repeat false m ++ [true])%list).
Proof.
  intros HN Hex. induction m as [|m IH]; intros p Hp Hm.
  - cbn [Page.countdown_run repeat app]. unfold Page.countdown_tick. cbn [JS.num_le].
    assert (E : Qle_bool p 1 = true).
    { apply Qle_bool_iff. rewrite Hp. unfold Qle. simpl. lia. }
    rewrite E. reflexivity.
  - assert (Hge : 2 <= p).
    { rewrite Hp. unfold Qle. cbn [Qnum Qden inject_Z]. lia. }
    assert (Hbound : inject_Z N < JS.overflow_bound).
    { unfold JS.overflow_bound. rewrite <- Zlt_Qlt.
      apply Z.le_lt_trans with (1 := HN). reflexivity. }
    assert (Hle : p <= inject_Z N).
    { rewrite Hp. rewrite <- Zle_Qle. exact Hm. }
    change (Page.countdown_run r (S (S m)) (JS.Fin p))
      with (let (c, loaded) := Page.countdown_tick r (JS.Fin p) in
            let (c', rest) := Page.countdown_run r (S m) c in (c', loaded :: rest)).
    unfold Page.countdown_tick. cbn [JS.num_le].
    assert (E : Qle_bool p 1 = false).
    { destruct (Qle_bool p 1) eqn:E'; [|reflexivity]. qbool. lra. }
    rewrite E. cbn [JS.fl_sub]. unfold JS.to_double.
    assert (Eo : Qle_bool JS.overflow_bound (Qabs (p - 1)) = false).
    { destruct (Qle_bool JS.overflow_bound (Qabs (p - 1))) eqn:E'; [|reflexivity].
      qbool. rewrite Qabs_pos in E' by lra. lra. }
    rewrite Eo.
    rewrite (IH (JS.round_nearest (p - 1))).
    + reflexivity.
    + apply Hex; [lia|]. rewrite Hp.
      replace (Z.of_nat (S (S m))) with (Z.of_nat (S m) + 1)%Z by lia.
      rewrite inject_Z_plus. change (inject_Z 1) with 1. ring.
    + lia.
Qed.

(** X12. With a refresh interval of N seconds (a whole number from 1 to
    2^53, on which the subtraction is exact) and the countdown at N, the
    next N ticks load the data exactly once, at the last of them, and leave
    the countdown at N again. *)
Theorem countdown_period (N : Z) (q : Q) :
  (1 <= N <= 2 ^ 53)%Z -> q == inject_Z N -> Page.integers_exact N ->
  Page.countdown_run (JS.Fin q) (Z.to_nat N) (JS.Fin q)
  = (JS.Fin q, (repeat false (Z.to_nat N - 1) ++ [true])%list).
Proof.
  intros [H1 H2] Hq Hex.
  destruct (Z.to_nat N) as [|m] eqn:Em; [lia|].
  replace (S m - 1)%nat with m by lia.
  apply (countdown_run_down N); try assumption.
  - rewrite Hq. rewrite <- Em. rewrite Z2Nat.id by lia. reflexivity.
  - lia.
Qed.

End CountdownFacts.

Lemma countdown_period_witness :
  @Page.countdown_run Sample.platform (JS.Fin 5) 5 (JS.Fin 5)
  = (JS.Fin 5, [false; false; false; false; true]).
Proof.
  apply (@countdown_period Sample.platform 5 5).
  - split; [lia | vm_compute; discriminate].
  - reflexivity.
  - intros q z _ Hq. exact Hq.
Defined.

(** ** The session badge *)

Lemma own_entry_None {A : Type} (own : list (string * A)) (key : string) :
  ~ In key (map fst own) -> Page.own_entry own key = None.
Proof.
  induction own as [|[k v] own IH]; [reflexivity|].
  cbn [map fst In Page.own_entry]. intros H.
  destruct (String.eqb k key) eqn:E.
  - apply String.eqb_eq in E. tauto.
  - apply IH. tauto.
Qed.

(** X13. The session badge is drawn as active exactly for the sessions
    PRE_OPEN, MORNING and AFTERNOON. A session that is not one of the five
    of its table is shown inactive under its own name, unless the name is
    one that object literals inherit (such as "constructor"): then the
    badge has no label at all. *)
Theorem SessionBadge_active (session : string) :
  (snd (Page.SessionBadge session) = true
   <-> In session ["PRE_OPEN"; "MORNING"; "AFTERNOON"])
  /\ (~ In session (map fst Page.session_config) ->
      ~ In session Utils.Object_prototype_members ->
      Page.SessionBadge session = (JS.Value session, false))
  /\ (In session Utils.Object_prototype_members ->
      Page.SessionBadge session = (JS.Undefined, false)).
Proof.
  repeat match goal with |- _ /\ _ => split end.
  - destruct (in_dec string_dec session (map fst Page.session_config)) as [Hin|Hout].
    + cbn [map fst Page.session_config In] in Hin.
      destruct Hin as [<-|[<-|[<-|[<-|[<-|[]]]]]]; cbn [In];
        (split; [vm_compute; intros H; first [discriminate H | tauto]
                |intros H; first [reflexivity
                                 |exfalso; intuition discriminate]]).
    + unfold Page.SessionBadge. rewrite (own_entry_None _ _ Hout).
      split.
      * destruct (existsb _ _); cbn [snd]; discriminate.
      * intros H. exfalso. apply Hout.
        cbn [In] in H. cbn [map fst Page.session_config In]. tauto.
  - intros Hout Hp. unfold Page.SessionBadge. rewrite (own_entry_None _ _ Hout).
    destruct (existsb (String.eqb session) Utils.Object_prototype_members) eqn:Ex;
      [|reflexivity].
    apply existsb_exists in Ex. destruct Ex as [x [Hx E]].
    apply String.eqb_eq in E. subst x. contradiction.
  - intros Hp. unfold Utils.Object_prototype_members in Hp. cbn [In] in Hp.
    repeat (destruct Hp as [<-|Hp]; [reflexivity|]). destruct Hp.
Qed.

Lemma SessionBadge_active_witness :
  Page.SessionBadge "AFTERNOON" = (JS.Value "下午盘", true)
  /\ Page.SessionBadge "HOLIDAY" = (JS.Value "HOLIDAY", false)
  /\ Page.SessionBadge "constructor" = (JS.Undefined, false).
Proof.
  split; [reflexivity|]. split.
  - apply (proj1 (proj2 (SessionBadge_active "HOLIDAY"))).
    + cbn [map fst Page.session_config In]. intuition discriminate.
    + unfold Utils.Object_prototype_members. cbn [In]. intuition discriminate.
  - apply (proj2 (proj2 (SessionBadge_active "constructor"))).
    unfold Utils.Object_prototype_members. cbn [In]. tauto.
Defined.

(** ** How an action is shown *)

(** X14. The frame of an alert card and the badge inside it show the same
    action for ALLOW, WATCH and BLOCK. For every other action the frame is
    the one of a blocked alert while the badge is the one of a watched
    alert, with the text "观察". *)
Theorem action_frame_and_badge (alert : Page.Alert) :
  (Page.alert_action alert = "ALLOW" ->
   Page.actionClass alert = "alert-card-allow"
   /\ Page.action_badge (Page.alert_action alert) = ("action-allow", "✅ 可执行"))
  /\ (Page.alert_action alert = "WATCH" ->
      Page.actionClass alert = "alert-card-watch"
      /\ Page.action_badge (Page.alert_action alert) = ("action-watch", "👁️ 观察"))
  /\ (Page.alert_action alert = "BLOCK" ->
      Page.actionClass alert = "alert-card-block"
      /\ Page.action_badge (Page.alert_action alert) = ("action-block", "🚫 禁止"))
  /\ (Page.alert_action alert <> "ALLOW" -> Page.alert_action alert <> "WATCH" ->
      Page.alert_action alert <> "BLOCK" ->
      Page.actionClass alert = "alert-card-block"
      /\ Page.action_badge (Page.alert_action alert) = ("action-watch", "观察")).
Proof.
  unfold Page.actionClass, Page.action_badge, Utils.getActionClass, Utils.getActionText.
  repeat match goal with |- _ /\ _ => split end;
    try (intros ->; split; reflexivity).
  intros Ha Hw Hb.
  apply String.eqb_neq in Ha, Hw, Hb. rewrite Ha, Hw, Hb. split; reflexivity.
Qed.

Lemma action_frame_and_badge_witness :
  Page.actionClass
    {| Page.alert_id := "a-1"; Page.alert_action := "HOLD"; Page.user_label := None |}
  = "alert-card-block"
  /\ Page.action_badge "HOLD" = ("action-watch", "观察").
Proof.
  apply (proj2 (proj2 (proj2 (action_frame_and_badge
           {| Page.alert_id := "a-1"; Page.alert_action := "HOLD";
              Page.user_label := None |}))));
    cbn [Page.alert_action]; discriminate.
Defined.

(** X15. Under a filter button other than "全部" the candidate pool shows
    exactly the candidates whose action is the button's, and each row's
    badge is the badge of that action; under "全部" it shows all of them. A
    candidate whose action is neither ALLOW nor WATCH is shown under "全部"
    only. *)
Theorem PoolView_filtered_rows (flt : string) (candidates : list Page.Candidate) :
  In flt Page.POOL_FILTERS ->
  (flt = "" -> Page.filtered flt candidates = candidates)
  /\ (flt <> "" ->
      Page.filtered flt candidates
      = List.filter (fun c => String.eqb (Page.cand_action c) flt) candidates
      /\ forall c, In c (Page.filtered flt candidates) ->
                   Page.action_badge (Page.cand_action c) = Page.action_badge flt)
  /\ (forall c, In c (Page.filtered flt candidates) ->
                Page.cand_action c <> "ALLOW" -> Page.cand_action c <> "WATCH" ->
                flt = "").
Proof.
  intros Hf. unfold Page.POOL_FILTERS in Hf. cbn [In] in Hf.
  assert (Hall : Page.filtered "" candidates = candidates).
  { unfold Page.filtered. cbn [JS.truthy_string String.eqb negb].
    induction candidates as [|c l IH]; [reflexivity|].
    cbn [filter]. rewrite IH. reflexivity. }
  assert (Hsome : flt <> "" ->
                  Page.filtered flt candidates
                  = List.filter (fun c => String.eqb (Page.cand_action c) flt) candidates).
  { intros Hne. unfold Page.filtered.
    apply truthy_string_spec in Hne. rewrite Hne. reflexivity. }
  repeat match goal with |- _ /\ _ => split end.
  - intros ->. exact Hall.
  - intros Hne. split; [exact (Hsome Hne)|].
    intros c Hc. rewrite (Hsome Hne) in Hc. apply filter_In in Hc.
    destruct Hc as [_ E]. apply String.eqb_eq in E. rewrite E. reflexivity.
  - intros c Hc Ha Hw.
    destruct Hf as [<-|[<-|[<-|[]]]]; [reflexivity| |];
      (rewrite Hsome in Hc by discriminate; apply filter_In in Hc;
       destruct Hc as [_ E]; apply String.eqb_eq in E; congruence).
Qed.

Lemma PoolView_filtered_rows_witness :
  Page.filtered "ALLOW"
    [ {| Page.cand_symbol := "600000"; Page.cand_action := "ALLOW" |};
      {| Page.cand_symbol := "000002"; Page.cand_action := "BLOCK" |};
      {| Page.cand_symbol := "300750"; Page.cand_action := "WATCH" |} ]
  = [ {| Page.cand_symbol := "600000"; Page.cand_action := "ALLOW" |} ]
  /\ Page.filtered ""
       [ {| Page.cand_symbol := "600000"; Page.cand_action := "ALLOW" |};
         {| Page.cand_symbol := "000002"; Page.cand_action := "BLOCK" |};
         {| Page.cand_symbol := "300750"; Page.cand_action := "WATCH" |} ]
     = [ {| Page.cand_symbol := "600000"; Page.cand_action := "ALLOW" |};
         {| Page.cand_symbol := "000002"; Page.cand_action := "BLOCK" |};
         {| Page.cand_symbol := "300750"; Page.cand_action := "WATCH" |} ].
Proof.
  split; [reflexivity|].
  apply (proj1 (PoolView_filtered_rows ""
           [ {| Page.cand_symbol := "600000"; Page.cand_action := "ALLOW" |};
             {| Page.cand_symbol := "000002"; Page.cand_action := "BLOCK" |};
             {| Page.cand_symbol := "300750"; Page.cand_action := "WATCH" |} ]
           (or_introl eq_refl))).
  reflexivity.
Defined.

(** ** The WebSocket client *)

Section WebSocketFacts.
Import Api.WebSocketClient.

Lemma set_nth_length (i : nat) (r : readyState) (l : list readyState) :
  List.length (set_nth i r l) = List.length l.
Proof.
  revert i. induction l as [|x l IH]; intros [|i]; simpl; try reflexivity.
  rewrite IH. reflexivity.
Qed.

Lemma set_nth_same (i : nat) (r : readyState) (l : list readyState) :
  (i < List.length l)%nat -> nth_error (set_nth i r l) i = Some r.
Proof.
  revert i. induction l as [|x l IH]; intros [|i]; simpl; try lia; try reflexivity.
  intros H. apply IH. lia.
Qed.

Lemma nth_error_length (l : list readyState) (x : readyState) :
  nth_error (l ++ [x]) (List.length l) = Some x.
Proof. induction l as [|y l IH]; simpl; [reflexivity|exact IH]. Qed.

Lemma existsb_eqb_In (t : nat) (l : list nat) :
  existsb (Nat.eqb t) l = true <-> In t l.
Proof.
  rewrite existsb_exists. split.
  - intros [x [Hx E]]. apply Nat.eqb_eq in E. subst x. exact Hx.
  - intros H. exists t. split; [exact H | apply Nat.eqb_refl].
Qed.

Lemma NoDup_map_pair (data : string) (hs : list handler) :
  NoDup hs -> NoDup (map (fun h => (h, data)) hs).
Proof.
  induction 1 as [|h hs Hh _ IH]; cbn [map]; constructor; [|exact IH].
  intros Hin. apply in_map_iff in Hin. destruct Hin as [x [[= ->] Hx]]. contradiction.
Qed.

Variable throws : handler -> string -> bool.

Lemma handlers_NoDup (w : state) : reachable throws w -> NoDup (messageHandlers w).
Proof.
  induction 1 as [|w _ IH|w _ IH|w h _ IH|w h _ IH|w text _ IH|w e w' _ IH He].
  - constructor.
  - unfold connect. destruct (is_open w); exact IH.
  - exact IH.
  - cbn [subscribe messageHandlers].
    destruct (existsb (Nat.eqb h) (messageHandlers w)) eqn:Ex; [exact IH|].
    apply NoDup_app; [exact IH | constructor; [intros []|constructor] |].
    intros x Hx [<-|[]].
    apply existsb_eqb_In in Hx. congruence.
  - cbn [unsubscribe messageHandlers]. clear - IH.
    induction IH as [|x l Hx _ IHl]; simpl; [constructor|].
    destruct (Nat.eq_dec h x); [exact IHl|].
    constructor; [|exact IHl].
    intros Hin. apply in_remove in Hin. tauto.
  - unfold send. destruct (ws w); [destruct (is_open w)|]; exact IH.
  - destruct e as [s|s parsed|s|t]; cbn [handle] in He.
    + destruct (nth_error (sockets w) s) as [[]|]; try discriminate.
      injection He as <-. unfold onopen.
      destruct (reconnectTimer (with_socket s OPEN w)); exact IH.
    + destruct (nth_error (sockets w) s) as [[]|]; try discriminate;
        injection He as <-; destruct parsed; exact IH.
    + destruct (nth_error (sockets w) s) as [[]|]; try discriminate;
        injection He as <-; exact IH.
    + destruct (existsb (Nat.eqb t) (timers w)); [|discriminate].
      injection He as <-. unfold connect.
      destruct (is_open (without_timer t w)); exact IH.
Qed.

Lemma forEach_quiet (data : string) (hs : list handler) :
  (forall h, In h hs -> throws h data = false) ->
  forEach throws data hs = map (fun h => (h, data)) hs.
Proof.
  induction hs as [|h hs IH]; intros Hq; [reflexivity|].
  cbn [forEach map]. rewrite (Hq h (or_introl eq_refl)).
  rewrite IH; [reflexivity|]. intros x Hx. apply Hq. right. exact Hx.
Qed.

(** X16. disconnect() does not end the connection for good. When the
    current socket is connecting or open, disconnect() starts closing it;
    once the browser reports it closed, a reconnection is scheduled, and
    when that timeout expires the client opens a new socket, which is its
    current one. *)
Theorem disconnect_then_reconnects (w : state) (s : nat) :
  ws w = Some s ->
  nth_error (sockets w) s = Some OPEN \/ nth_error (sockets w) s = Some CONNECTING ->
  exists w1 t w2,
    ws (disconnect w) = None
    /\ nth_error (sockets (disconnect w)) s = Some CLOSING
    /\ handle throws (Ev_close s) (disconnect w) = Some w1
    /\ reconnectTimer w1 = Some t
    /\ handle throws (Ev_timeout t) w1 = Some w2
    /\ ws w2 = Some (List.length (sockets w))
    /\ nth_error (sockets w2) (List.length (sockets w)) = Some CONNECTING.
Proof.
  intros Hws Hst.
  assert (Hlt : (s < List.length (sockets w))%nat).
  { apply nth_error_Some. destruct Hst as [E|E]; rewrite E; discriminate. }
  assert (Hclosing : nth_error (sockets (disconnect w)) s = Some CLOSING).
  { cbn [disconnect sockets]. rewrite Hws. unfold close_socket.
    destruct Hst as [E|E]; rewrite E; apply set_nth_same, Hlt. }
  set (w0 := disconnect w) in *.
  set (w1 := onclose (with_socket s CLOSED w0)).
  set (t := S (timer_count w0)).
  assert (Ht : existsb (Nat.eqb t) (timers w1) = true).
  { apply existsb_eqb_In. cbn [w1 onclose with_socket timers timer_count].
    apply in_or_app. right. left. reflexivity. }
  assert (Hlen : List.length (sockets (without_timer t w1)) = List.length (sockets w)).
  { cbn [without_timer w1 onclose with_socket sockets]. rewrite set_nth_length.
    unfold w0. cbn [disconnect sockets]. rewrite Hws. unfold close_socket.
    destruct (nth_error (sockets w) s) as [[]|]; try rewrite set_nth_length; reflexivity. }
  assert (Hopen : is_open (without_timer t w1) = false) by reflexivity.
  exists w1, t, (connect (without_timer t w1)).
  repeat match goal with |- _ /\ _ => split end.
  - reflexivity.
  - exact Hclosing.
  - cbn [handle]. rewrite Hclosing. reflexivity.
  - reflexivity.
  - cbn [handle]. rewrite Ht. reflexivity.
  - unfold connect. rewrite Hopen. cbn [ws]. rewrite Hlen. reflexivity.
  - unfold connect. rewrite Hopen. cbn [sockets]. rewrite <- Hlen.
    apply nth_error_length.
Qed.

(** X17. However the client was used before, a message that parses is
    passed to each subscribed handler exactly once, in the order of
    subscription, provided none of the handlers throws on it; a handler that
    was unsubscribed receives nothing; a message that does not parse reaches
    no handler. *)
Theorem message_dispatch (w w' : state) (s : nat) (parsed : option string) :
  reachable throws w ->
  handle throws (Ev_message s parsed) w = Some w' ->
  match parsed with
  | Some data =>
      (forall h, In h (messageHandlers w) -> throws h data = false) ->
      calls w' = (calls w ++ map (fun h => (h, data)) (messageHandlers w))%list
      /\ NoDup (map (fun h => (h, data)) (messageHandlers w))
  | None => w' = w
  end
  /\ forall h, ~ In h (messageHandlers (unsubscribe h w)).
Proof.
  intros Hr He. split.
  - cbn [handle] in He.
    assert (E : w' = onmessage throws parsed w)
      by (destruct (nth_error (sockets w) s) as [[]|]; congruence).
    subst w'. destruct parsed as [data|]; [|reflexivity].
    intros Hq. cbn [onmessage calls]. rewrite (forEach_quiet _ _ Hq).
    split; [reflexivity|].
    apply NoDup_map_pair, (handlers_NoDup _ Hr).
  - intros h. cbn [unsubscribe messageHandlers]. apply remove_In.
Qed.

End WebSocketFacts.

Lemma disconnect_then_reconnects_witness :
  exists w1 t w2,
    Api.WebSocketClient.ws
      (Api.WebSocketClient.disconnect
         (Api.WebSocketClient.connect Api.WebSocketClient.wsClient)) = None
    /\ nth_error
         (Api.WebSocketClient.sockets
            (Api.WebSocketClient.disconnect
               (Api.WebSocketClient.connect Api.WebSocketClient.wsClient))) 0%nat
       = Some Api.WebSocketClient.CLOSING
    /\ Api.WebSocketClient.handle (fun _ _ => false) (Api.WebSocketClient.Ev_close 0%nat)
         (Api.WebSocketClient.disconnect
            (Api.WebSocketClient.connect Api.WebSocketClient.wsClient)) = Some w1
    /\ Api.WebSocketClient.reconnectTimer w1 = Some t
    /\ Api.WebSocketClient.handle (fun _ _ => false) (Api.WebSocketClient.Ev_timeout t) w1
       = Some w2
    /\ Api.WebSocketClient.ws w2 = Some 1%nat
    /\ nth_error (Api.WebSocketClient.sockets w2) 1%nat = Some Api.WebSocketClient.CONNECTING.
Proof.
  apply (disconnect_then_reconnects (fun _ _ => false)
           (Api.WebSocketClient.connect Api.WebSocketClient.wsClient) 0%nat).
  - reflexivity.
  - right. reflexivity.
Defined.

Lemma message_dispatch_witness :
  Api.WebSocketClient.calls
    (Api.WebSocketClient.onmessage (fun _ _ => false) (Some "tick")
       (Api.WebSocketClient.onopen
          (Api.WebSocketClient.with_socket 0%nat Api.WebSocketClient.OPEN
             (Api.WebSocketClient.subscribe 2%nat
                (Api.WebSocketClient.subscribe 1%nat
                   (Api.WebSocketClient.subscribe 2%nat
                      (Api.WebSocketClient.connect Api.WebSocketClient.wsClient)))))))
  = [(2%nat, "tick"); (1%nat, "tick")].
Proof.
  refine (proj1 (proj1 (message_dispatch (fun _ _ => false)
            (Api.WebSocketClient.onopen
               (Api.WebSocketClient.with_socket 0%nat Api.WebSocketClient.OPEN
                  (Api.WebSocketClient.subscribe 2%nat
                     (Api.WebSocketClient.subscribe 1%nat
                        (Api.WebSocketClient.subscribe 2%nat
                           (Api.WebSocketClient.connect Api.WebSocketClient.wsClient))))))
            _ 0%nat (Some "tick") _ _) _)).
  - apply (Api.WebSocketClient.reach_event _
             (Api.WebSocketClient.subscribe 2%nat
                (Api.WebSocketClient.subscribe 1%nat
                   (Api.WebSocketClient.subscribe 2%nat
                      (Api.WebSocketClient.connect Api.WebSocketClient.wsClient))))
             (Api.WebSocketClient.Ev_open 0%nat));
      [|reflexivity].
    repeat apply Api.WebSocketClient.reach_subscribe.
    apply Api.WebSocketClient.reach_connect, Api.WebSocketClient.reach_start.
  - reflexivity.
  - intros h _. reflexivity.
Defined.
